(** * A bitmap block allocator (alloc.c): model and properties

    The allocator keeps four globals: the pool [mem], the occupancy
    [bitmap], the block count [blocks] and the [poison] flag.  They are
    modelled as one record that every operation takes and returns.

    Conventions of the model:
    - [uint64_t] values are [Z] in [0, 2^64); every C operation that can
      wrap is written with [wrap64].
    - a pointer into the pool is its byte offset from the base [mem],
      taken modulo [2^64]; the null pointer returned by [alloc] is [None].
    - the pool and the bitmap are finite maps from a byte offset to a byte;
      an offset that was never written reads 0, as the anonymous mappings
      (and calloc) hand out zero-filled memory.  The C objects are [pool]
      and [bitmap_sz] bytes long; an access past them is out of bounds in
      C and lands, in the model, on the offset it names.
    - 64-bit loads and stores are little-endian.
    - [time(0)] is an input of [alloc] (the clock reading [now]).
    - text written to stderr is returned as a list of messages. *)

From Stdlib Require Import ZArith Lia.
From stdpp Require Import gmap strings list fin_maps.

Local Open Scope Z_scope.

(** ** Machine integers *)

Definition wrap64 (z : Z) : Z := z mod 2 ^ 64.
Definition wrap8 (z : Z) : Z := z mod 2 ^ 8.

(** Two's-complement reading of the low 32 bits, the type [int]. *)
Definition int32 (z : Z) : Z := (z + 2 ^ 31) mod 2 ^ 32 - 2 ^ 31.

(** [((uint8_t)1) << blkid]: the left operand is promoted to [int], so
    the shift is a shift of an [int].  C defines it for
    [0 <= blkid < 31], where it is [2 ^ blkid].  For larger counts the
    model follows the x86-64 shift instruction (count taken modulo 32,
    result kept in 32 bits). *)
Definition shl1 (blkid : Z) : Z := int32 (Z.shiftl 1 (blkid mod 32)).

(** ** Byte-addressed memory *)

Definition byte_at (m : gmap Z Z) (a : Z) : Z := default 0 (m !! a).

Fixpoint encode_le (n : nat) (v : Z) : list Z :=
  match n with
  | O => []
  | S n' => v mod 256 :: encode_le n' (v / 256)
  end.

Fixpoint decode_le (bs : list Z) : Z :=
  match bs with
  | [] => 0
  | b :: bs' => b + 256 * decode_le bs'
  end.

Fixpoint store_bytes (m : gmap Z Z) (a : Z) (bs : list Z) : gmap Z Z :=
  match bs with
  | [] => m
  | b :: bs' => store_bytes (<[wrap64 a := b]> m) (a + 1) bs'
  end.

Fixpoint load_bytes (m : gmap Z Z) (a : Z) (n : nat) : list Z :=
  match n with
  | O => []
  | S n' => byte_at m (wrap64 a) :: load_bytes m (a + 1) n'
  end.

(** [*(uint64_t* )(mem + a) = v] and its read. *)
Definition store64 (m : gmap Z Z) (a v : Z) : gmap Z Z :=
  store_bytes m a (encode_le 8 v).
Definition load64 (m : gmap Z Z) (a : Z) : Z :=
  decode_le (load_bytes m a 8).

(** ** Allocator state *)

Record state := State {
  mem : gmap Z Z;        (* the pool, by byte offset from its base *)
  pool : Z;              (* size of the pool object in bytes *)
  bitmap : gmap Z Z;     (* the bitmap, by byte index *)
  bitmap_sz : Z;         (* size of the bitmap object in bytes *)
  blocks : Z;
  poison : Z
}.

(** The statics as the program starts: nothing reserved, not poisoned. *)
Definition boot : state :=
  {| mem := ∅; pool := 0; bitmap := ∅; bitmap_sz := 0; blocks := 0; poison := 0 |}.

(** The rounding shared by [alloc_init] and [alloc]:
    [if (sz % 16 != 0) { int rem = sz % 16; sz += (16 - rem); }] *)
Definition round16 (sz : Z) : Z :=
  if negb (sz mod 16 =? 0) then wrap64 (sz + (16 - sz mod 16)) else sz.

(** The statics [alloc_init] leaves on the path where both reservations
    succeed (the whole function, with the paths where one is refused, is
    [alloc_init_sys] below).  The fresh mappings are zero-filled and
    replace the old ones; [poison] is not touched.  [pool] and
    [bitmap_sz] record the sizes asked of the system. *)
Definition alloc_init (st : state) (pool0 : Z) : state :=
  let p := round16 pool0 in
  let sz := if p / 128 =? 0 then 1 else p / 128 in
  {| mem := ∅; pool := p; bitmap := ∅; bitmap_sz := sz;
     blocks := p / 16; poison := poison st |}.

(** What the system answers to [mmap(0, len, ...)]: the region, or
    [MAP_FAILED] with the text of the error.  A length of 0 is refused
    whatever the state of the system (EINVAL). *)
Inductive answer := Granted | Denied (err : string).

Definition mmap_len (len : Z) (a : answer) : answer :=
  if len =? 0 then Denied "Invalid argument" else a.

(** How a call of [alloc_init] ends (the mmap branch of the source).
    - [InitOk]: both regions were granted; the statics are as given.
    - [InitNoHeap]: the pool was refused; the function reports it and
      returns at once, with [mem] left at [MAP_FAILED] and [bitmap],
      [blocks] and [poison] at their old values.
    - [InitFault]: the bitmap was refused; the function reports it,
      unmaps the pool and goes on to [memset] through [MAP_FAILED]. *)
Inductive init_end :=
  | InitOk (st : state)
  | InitNoHeap (out : list string)
  | InitFault (out : list string).

Definition newline : string := String (Ascii.ascii_of_nat 10) EmptyString.

Definition no_heap_msg : string :=
  String.append "alloc_init(): could not allocate heap" newline.
Definition no_bitmap_msg : string := "alloc_init(): could not allocate bitmap".

(** The text [perror("mmap")] writes for the error [err]. *)
Definition perror_mmap (err : string) : string :=
  String.append "mmap: " (String.append err newline).

(** [alloc_init] as a whole; [heap] and [bmp] are what the system
    answers to the two reservations. *)
Definition alloc_init_sys (heap bmp : answer) (st : state) (pool0 : Z)
  : init_end :=
  let p := round16 pool0 in
  match mmap_len p heap with
  | Denied err => InitNoHeap [no_heap_msg; perror_mmap err]
  | Granted =>
      let sz := if p / 128 =? 0 then 1 else p / 128 in
      match mmap_len sz bmp with
      | Denied _ => InitFault [no_bitmap_msg]
      | Granted => InitOk (alloc_init st pool0)
      end
  end.

(** The pool is set up and the two regions, as long as they were asked
    for, hold every block and a bitmap bit for every block. *)
Definition set_up (st : state) : Prop :=
  0 < blocks st < 2 ^ 60 /\ 16 * blocks st <= pool st /\
  blocks st <= 8 * bitmap_sz st.

(** ** The bitmap macros *)

(** [#define IS_FREE(blkid) (bitmap[blkid / 8] & (((uint8_t)1) << blkid)) == 0] *)
Definition IS_FREE (bm : gmap Z Z) (blkid : Z) : bool :=
  Z.land (byte_at bm (blkid / 8)) (shl1 blkid) =? 0.

(** [#define MARK(blkid) (bitmap[blkid / 8] ^= ((((uint8_t)1) << blkid) - 1))]
    The subtraction is an [int] subtraction and the result is stored back
    into a [uint8_t]. *)
Definition MARK (bm : gmap Z Z) (blkid : Z) : gmap Z Z :=
  <[blkid / 8 := wrap8 (Z.lxor (byte_at bm (blkid / 8)) (int32 (shl1 blkid - 1)))]> bm.

(** ** alloc *)

(** [for (j = i; j < i + blk; j++) if (!IS_FREE(j)) goto next;]
    [n] is the number of iterations left. *)
Fixpoint run_free (bm : gmap Z Z) (j : Z) (n : nat) : bool :=
  match n with
  | O => true
  | S n' => if IS_FREE bm j then run_free bm (j + 1) n' else false
  end.

(** Iterations of [for (j = lo; j < hi; j++)] on [uint64_t] bounds. *)
Definition trip (lo hi : Z) : nat := Z.to_nat (hi - lo).

(** The outer loop [for (i = 0; i < blocks; i++)], from index [i] with
    [n] iterations left: the first [i] that is free and starts a run of
    [blk] free blocks. *)
Fixpoint find_run (bm : gmap Z Z) (blk : Z) (i : Z) (n : nat) : option Z :=
  match n with
  | O => None
  | S n' =>
      if IS_FREE bm i && run_free bm i (trip i (wrap64 (i + blk)))
      then Some i
      else find_run bm blk (i + 1) n'
  end.

(** [for (j = lo; ...; j++) MARK(j);] with [n] iterations left. *)
Fixpoint mark_loop (bm : gmap Z Z) (j : Z) (n : nat) : gmap Z Z :=
  match n with
  | O => bm
  | S n' => mark_loop (MARK bm j) (j + 1) n'
  end.

Definition exhausted_msg : string :=
  "Pool has been exhausted...Cannot allocate more memory".

Definition alloc_blk (sz : Z) : Z := wrap64 (round16 sz / 16 + 2).

(** The success branch of [alloc] for the run starting at block [i]:
    mark, write the header [{blk, magic}] and the footer
    [{magic, magic}]. *)
Definition place (now : Z) (st : state) (blk i : Z) : state :=
  let bm := mark_loop (bitmap st) i (trip i (wrap64 (i + blk + 1))) in
  let hdr := wrap64 (i * 16) in
  let m1 := store64 (mem st) hdr blk in
  let magic := wrap64 now in
  let m2 := store64 m1 (hdr + 8) magic in
  let ftr := wrap64 (hdr + wrap64 ((blk - 1) * 16)) in
  let m3 := store64 m2 ftr magic in
  let m4 := store64 m3 (ftr + 8) magic in
  {| mem := m4; pool := pool st; bitmap := bm;
     bitmap_sz := bitmap_sz st; blocks := blocks st; poison := poison st |}.

Definition alloc (now : Z) (st : state) (sz : Z)
  : option Z * state * list string :=
  let blk := alloc_blk sz in
  if negb (poison st =? 0) then (None, st, [])
  else
    match find_run (bitmap st) blk 0 (Z.to_nat (blocks st)) with
    | Some i => (Some (wrap64 ((i + 1) * 16)), place now st blk i, [])
    | None => (None, st, [exhausted_msg])
    end.

(** ** free_mem *)

Definition poison_msg : string :=
  "Invalid pointer or buffer overrun detected..Poisoning ourself".

(** The three words [free_mem] reads: the block count and the magic of
    the header just below [data], and the first word of the footer. *)
Definition hdr_blk (st : state) (data : Z) : Z := load64 (mem st) (data - 16).
Definition hdr_magic (st : state) (data : Z) : Z := load64 (mem st) (data - 8).
Definition ftr_addr (data blk : Z) : Z := wrap64 (data + wrap64 ((blk - 2) * 16)).
Definition ftr_magic (st : state) (data : Z) : Z :=
  load64 (mem st) (ftr_addr data (hdr_blk st data)).

Definition with_poison (st : state) (v : Z) : state :=
  {| mem := mem st; pool := pool st; bitmap := bitmap st;
     bitmap_sz := bitmap_sz st; blocks := blocks st; poison := v |}.

Definition with_bitmap (st : state) (bm : gmap Z Z) : state :=
  {| mem := mem st; pool := pool st; bitmap := bm;
     bitmap_sz := bitmap_sz st; blocks := blocks st; poison := poison st |}.

(** The block index [free_mem] derives from the pointer:
    [offset = (uint8_t* )data - mem; offset -= 16; offset /= 16;] *)
Definition free_index (data : Z) : Z := wrap64 (wrap64 data - 16) / 16.

Definition free_mem (st : state) (data : Z) : state * list string :=
  let blk := hdr_blk st data in
  let magic := hdr_magic st data in
  if negb (magic =? ftr_magic st data) then
    (with_poison st 1, [poison_msg])
  else
    let offset := free_index data in
    (with_bitmap st
       (mark_loop (bitmap st) offset (trip offset (wrap64 (offset + blk + 1)))),
     []).

(** ** clear_posion *)

Definition clear_posion (st : state) : state := with_poison st 0.

(** ** Vocabulary of the properties *)

(** The three states of the allocator.  The program has no flag for
    "initialised": before [alloc_init] the statics are zero, so
    [blocks = 0]. *)
Inductive phase := Uninitialized | Ready | Poisoned.

Definition phase_of (st : state) : phase :=
  if negb (poison st =? 0) then Poisoned
  else if blocks st =? 0 then Uninitialized
  else Ready.

(** Two byte ranges [a, a + la) and [b, b + lb) do not meet. *)
Definition ranges_disjoint (a la b lb : Z) : Prop := a + la <= b \/ b + lb <= a.

(** The check a release could make on the stored block count: at least
    a header, one payload block and a footer, no more than the pool has,
    and the footer block inside the pool.  [free_mem] has no such check;
    the predicate only serves to say so. *)
Definition plausible (st : state) (data blk : Z) : Prop :=
  3 <= blk <= blocks st /\ data + (blk - 2) * 16 + 16 <= pool st.

(** A user store of one 64-bit word into the pool (an overrun, say). *)
Definition user_write (st : state) (a v : Z) : state :=
  {| mem := store64 (mem st) a v; pool := pool st; bitmap := bitmap st;
     bitmap_sz := bitmap_sz st; blocks := blocks st; poison := poison st |}.

(** Every entry of a byte map is a [uint8_t] value. *)
Definition bytes_ok (m : gmap Z Z) : Prop :=
  map_Forall (fun _ v => 0 <= v < 256) m.

(** Two byte maps read the same at every offset. *)
Definition same_bytes (m1 m2 : gmap Z Z) : Prop :=
  forall k, byte_at m1 k = byte_at m2 k.

(** The test [alloc] makes at index [k]: the block is free and so are
    the [blk] blocks from it on. *)
Definition fits (bm : gmap Z Z) (blk k : Z) : bool :=
  IS_FREE bm k && run_free bm k (trip k (wrap64 (k + blk))).

(** What the [n] calls [MARK(j)], [MARK(j+1)], ... xor into byte [k] of
    the bitmap, all together. *)
Fixpoint xor_acc (j : Z) (n : nat) (k : Z) : Z :=
  match n with
  | O => 0
  | S n' =>
      Z.lxor (if decide (j / 8 = k) then int32 (shl1 j - 1) else 0)
             (xor_acc (j + 1) n' k)
  end.

(** ** Concrete runs *)

Module Run.

(** The clock reading used in the runs below. *)
Definition tick : Z := 1700000000.

(** [alloc_init(128); alloc(16); alloc(32);] *)
Definition s128 : state := alloc_init boot 128.
Definition a16 := alloc tick s128 16.
Definition a16_32 := alloc tick a16.1.2 32.

(** [alloc_init(128); alloc(16); alloc(16);] in one clock tick. *)
Definition a16_16 := alloc tick a16.1.2 16.

(** [alloc_init(128); alloc(0);] *)
Definition a0 := alloc tick s128 0.

(** [alloc_init(4096); alloc(128); alloc(16);] *)
Definition s4096 : state := alloc_init boot 4096.
Definition b128 := alloc tick s4096 128.
Definition b128_16 := alloc tick b128.1.2 16.

(** [alloc_init(64); alloc(48);] and [alloc_init(64); alloc(16); alloc(16);] *)
Definition s64 : state := alloc_init boot 64.
Definition c48 := alloc tick s64 48.
Definition c16 := alloc tick s64 16.
Definition c16_16 := alloc tick c16.1.2 16.

(** [alloc_init(128); p = alloc(16);] then the user overwrites the
    first footer word, at [p + 16]. *)
Definition overrun : state := user_write a16.1.2 32 0.

End Run.

(** ** Arithmetic of the machine integers *)

Lemma wrap64_range z : 0 <= wrap64 z < 2 ^ 64.
Proof. unfold wrap64. apply Z.mod_pos_bound. lia. Qed.

Lemma wrap64_small z : 0 <= z < 2 ^ 64 -> wrap64 z = z.
Proof. intros H. unfold wrap64. apply Z.mod_small. exact H. Qed.

Lemma wrap64_mod16 z : wrap64 z mod 16 = z mod 16.
Proof.
  unfold wrap64.
  change (2 ^ 64) with (16 * 2 ^ 60).
  rewrite Z.rem_mul_r by lia.
  rewrite Z.mul_comm, Z.mod_add by lia.
  apply Z.mod_mod. lia.
Qed.

Lemma decode_encode n v : decode_le (encode_le n v) = v mod 256 ^ Z.of_nat n.
Proof.
  revert v. induction n as [|n IH]; intros v.
  - simpl. symmetry. apply Z.mod_1_r.
  - cbn [encode_le decode_le]. rewrite IH.
    rewrite Nat2Z.inj_succ, Z.pow_succ_r by lia.
    rewrite Z.rem_mul_r by lia. reflexivity.
Qed.

Lemma encode_length n v : length (encode_le n v) = n.
Proof. revert v. induction n as [|n IH]; intros v; simpl; [|rewrite IH]; reflexivity. Qed.

(** ** Loads after stores *)

Lemma store_bytes_other m a bs x :
  (forall k, 0 <= k < Z.of_nat (length bs) -> wrap64 (a + k) <> x) ->
  store_bytes m a bs !! x = m !! x.
Proof.
  revert m a. induction bs as [|b bs IH]; intros m a H; [reflexivity|].
  cbn [store_bytes]. rewrite IH.
  - apply lookup_insert_ne. specialize (H 0). rewrite Z.add_0_r in H.
    apply H. cbn [length]. lia.
  - intros k Hk. replace (a + 1 + k) with (a + (k + 1)) by lia.
    apply H. cbn [length]. lia.
Qed.

Lemma load_store_same m a bs :
  0 <= a -> a + Z.of_nat (length bs) <= 2 ^ 64 ->
  load_bytes (store_bytes m a bs) a (length bs) = bs.
Proof.
  revert m a. induction bs as [|b bs IH]; intros m a Ha Hb; [reflexivity|].
  cbn [length] in Hb. cbn [store_bytes length load_bytes]. f_equal.
  - unfold byte_at. rewrite store_bytes_other.
    + rewrite lookup_insert_eq. reflexivity.
    + intros k Hk. rewrite !wrap64_small by lia. lia.
  - apply IH; lia.
Qed.

Lemma load_store_disjoint m a bs b n :
  0 <= a -> a + Z.of_nat (length bs) <= 2 ^ 64 ->
  0 <= b -> b + Z.of_nat n <= 2 ^ 64 ->
  a + Z.of_nat (length bs) <= b \/ b + Z.of_nat n <= a ->
  load_bytes (store_bytes m a bs) b n = load_bytes m b n.
Proof.
  revert b. induction n as [|n IH]; intros b Ha Hla Hb Hlb Hd; [reflexivity|].
  cbn [load_bytes]. f_equal.
  - unfold byte_at. rewrite store_bytes_other; [reflexivity|].
    intros k Hk. rewrite !wrap64_small by lia. lia.
  - apply IH; lia.
Qed.

Lemma load64_store64_same m a v :
  0 <= a -> a + 8 <= 2 ^ 64 -> 0 <= v < 2 ^ 64 ->
  load64 (store64 m a v) a = v.
Proof.
  intros Ha Hb Hv. unfold load64, store64.
  pose proof (load_store_same m a (encode_le 8 v)) as H.
  rewrite encode_length in H. rewrite H by (simpl; lia).
  rewrite decode_encode. apply Z.mod_small. exact Hv.
Qed.

Lemma load64_store64_disjoint m a v b :
  0 <= a -> a + 8 <= 2 ^ 64 -> 0 <= b -> b + 8 <= 2 ^ 64 ->
  a + 8 <= b \/ b + 8 <= a ->
  load64 (store64 m a v) b = load64 m b.
Proof.
  intros Ha Hla Hb Hlb Hd. unfold load64, store64.
  rewrite load_store_disjoint; [reflexivity| | | | |];
    rewrite ?encode_length; simpl; lia.
Qed.

(** ** The search loop *)

Lemma find_run_Some bm blk i n r :
  find_run bm blk i n = Some r ->
  i <= r < i + Z.of_nat n /\ IS_FREE bm r = true /\
  run_free bm r (trip r (wrap64 (r + blk))) = true.
Proof.
  revert i. induction n as [|n IH]; intros i H; [discriminate|].
  cbn [find_run] in H.
  destruct (IS_FREE bm i && run_free bm i (trip i (wrap64 (i + blk)))) eqn:E.
  - injection H as <-. apply andb_true_iff in E as [E1 E2].
    split; [lia|]. split; assumption.
  - apply IH in H as (Hr & H1 & H2). split; [lia|]. split; assumption.
Qed.

(** First fit: no earlier index passed the test. *)
Lemma find_run_first bm blk i n r k :
  find_run bm blk i n = Some r -> i <= k < r ->
  IS_FREE bm k && run_free bm k (trip k (wrap64 (k + blk))) = false.
Proof.
  revert i. induction n as [|n IH]; intros i H Hk; [discriminate|].
  cbn [find_run] in H.
  destruct (IS_FREE bm i && run_free bm i (trip i (wrap64 (i + blk)))) eqn:E.
  - injection H as <-. lia.
  - destruct (decide (k = i)) as [->|Hne]; [exact E|].
    apply (IH (i + 1)); [exact H|lia].
Qed.

Lemma find_run_None bm blk i n k :
  find_run bm blk i n = None -> i <= k < i + Z.of_nat n ->
  IS_FREE bm k && run_free bm k (trip k (wrap64 (k + blk))) = false.
Proof.
  revert i. induction n as [|n IH]; intros i H Hk; [lia|].
  cbn [find_run] in H.
  destruct (IS_FREE bm i && run_free bm i (trip i (wrap64 (i + blk)))) eqn:E;
    [discriminate|].
  destruct (decide (k = i)) as [->|Hne]; [exact E|].
  apply (IH (i + 1)); [exact H|lia].
Qed.

(** ** alloc, case by case *)

Lemma alloc_Some now st sz p st' out :
  alloc now st sz = (Some p, st', out) ->
  poison st = 0 /\
  exists i,
    find_run (bitmap st) (alloc_blk sz) 0 (Z.to_nat (blocks st)) = Some i /\
    p = wrap64 ((i + 1) * 16) /\
    st' = place now st (alloc_blk sz) i /\
    out = [].
Proof.
  unfold alloc. intros H.
  destruct (poison st =? 0) eqn:Ep; cbn [negb] in H; [|discriminate].
  apply Z.eqb_eq in Ep. split; [exact Ep|].
  destruct (find_run _ _ _ _) as [i|] eqn:Ef; [|discriminate].
  exists i. injection H as <- <- <-. repeat split.
Qed.

(** A failed [alloc] hands the state back as it got it. *)
Lemma alloc_None_unchanged now st sz :
  (alloc now st sz).1.1 = None -> (alloc now st sz).1.2 = st.
Proof.
  unfold alloc.
  destruct (negb (poison st =? 0)); [reflexivity|].
  destruct (find_run _ _ _ _); [discriminate|reflexivity].
Qed.

(** When the search finds nothing, [alloc] returns null, reports the
    exhaustion and changes nothing. *)
Lemma alloc_search_fails now st sz :
  poison st = 0 ->
  find_run (bitmap st) (alloc_blk sz) 0 (Z.to_nat (blocks st)) = None ->
  alloc now st sz = (None, st, [exhausted_msg]).
Proof.
  intros Hp Hf. unfold alloc. rewrite Hp, Hf. reflexivity.
Qed.

(** Every pointer [alloc] returns is a multiple of 16 from the pool base. *)
Lemma alloc_ptr_aligned now st sz p st' out :
  alloc now st sz = (Some p, st', out) -> p mod 16 = 0.
Proof.
  intros H. apply alloc_Some in H as (_ & i & _ & -> & _).
  rewrite wrap64_mod16. apply Z.mod_mul. lia.
Qed.

(** The word at [16 i + 8], the header's magic, after [place]. *)
Lemma place_hdr_magic now st blk i :
  0 <= i -> i * 16 + 16 <= 2 ^ 64 ->
  load64 (mem (place now st blk i)) (i * 16 + 8) = wrap64 now.
Proof.
  intros Hi Hb. unfold place. cbn [mem].
  rewrite (wrap64_small (i * 16)) by lia.
  set (ftr := wrap64 (i * 16 + wrap64 ((blk - 1) * 16))).
  pose proof (wrap64_range now) as Hm.
  assert (Hf : 0 <= ftr < 2 ^ 64) by apply wrap64_range.
  assert (Hf16 : ftr mod 16 = 0).
  { unfold ftr. rewrite wrap64_mod16.
    rewrite Z.add_mod, wrap64_mod16, !Z.mod_mul by lia. reflexivity. }
  apply Z.mod_divide in Hf16 as [q Hq]; [|lia].
  destruct (decide (q = i)) as [->|Hne].
  - rewrite Hq. apply load64_store64_same; lia.
  - rewrite !load64_store64_disjoint by lia.
    apply load64_store64_same; lia.
Qed.

Lemma alloc_hdr_magic now st sz p st' out :
  blocks st < 2 ^ 60 ->
  alloc now st sz = (Some p, st', out) ->
  hdr_magic st' p = wrap64 now.
Proof.
  intros Hb H. apply alloc_Some in H as (_ & i & Hf & -> & -> & _).
  apply find_run_Some in Hf as (Hi & _).
  assert (0 <= i < 2 ^ 60 - 1) as Hi' by lia.
  unfold hdr_magic. rewrite wrap64_small by lia.
  replace ((i + 1) * 16 - 8) with (i * 16 + 8) by lia.
  apply place_hdr_magic; lia.
Qed.

(** [free_mem] recovers from a pointer of [alloc] the index of the header
    block it was placed at. *)
Lemma free_index_of_alloc i :
  0 <= i < 2 ^ 60 - 1 -> free_index (wrap64 ((i + 1) * 16)) = i.
Proof.
  intros Hi. unfold free_index.
  rewrite (wrap64_small ((i + 1) * 16)) by lia.
  rewrite (wrap64_small ((i + 1) * 16)) by lia.
  replace ((i + 1) * 16 - 16) with (i * 16) by lia.
  rewrite wrap64_small by lia. apply Z.div_mul. lia.
Qed.

(** ** Size rounding *)

Lemma round16_aligned sz : sz mod 16 = 0 -> round16 sz = sz.
Proof. intros H. unfold round16. rewrite H. reflexivity. Qed.

Lemma round16_top sz : 2 ^ 64 - 16 < sz < 2 ^ 64 -> round16 sz = 0.
Proof.
  intros H. unfold round16.
  assert (E : sz mod 16 = sz - (2 ^ 64 - 16)).
  { symmetry. apply (Z.mod_unique_pos sz 16 (2 ^ 60 - 1)); lia. }
  rewrite E.
  replace (sz - (2 ^ 64 - 16) =? 0) with false by (symmetry; apply Z.eqb_neq; lia).
  cbn [negb]. unfold wrap64.
  replace (sz + (16 - (sz - (2 ^ 64 - 16)))) with (2 ^ 64) by lia.
  reflexivity.
Qed.

(** ** The claims *)

Import Run.

(** C1 (the code departs from it).  Claim: a successful allocation that
    selects the run starting at block [i] marks exactly the [blk] blocks
    [i, i+blk) as occupied and changes no other block's bit.
    On a fresh 128-byte pool [alloc(16)] selects [i = 0] with [blk = 3],
    yet the bitmap byte becomes 5: block 1, inside the run, still tests
    free.  The next [alloc(32)] selects [i = 3] with [blk = 4] and turns
    the byte into 82: the bit of block 0, outside its run, is flipped back
    to free and that of block 1 is set. *)
Theorem alloc_marks_wrong_bits :
  a16.1.1 = Some 16 /\ alloc_blk 16 = 3 /\
  bitmap a16.1.2 !! 0 = Some 5 /\
  IS_FREE (bitmap a16.1.2) 0 = false /\
  IS_FREE (bitmap a16.1.2) 1 = true /\
  a16_32.1.1 = Some 64 /\ alloc_blk 32 = 4 /\
  bitmap a16_32.1.2 !! 0 = Some 82 /\
  IS_FREE (bitmap a16_32.1.2) 0 = true /\
  IS_FREE (bitmap a16_32.1.2) 1 = false.
Proof. vm_compute. repeat split; reflexivity. Qed.

(** C2 (the code departs from it).  Claim: on a large fresh pool every
    [alloc(size)], [1 <= size <= 4096], returns a 16-byte aligned pointer
    and successive allocations have pairwise disjoint payloads.
    The alignment holds ([alloc_ptr_aligned]).  The payloads can meet: on
    a fresh 4096-byte pool (256 blocks) [alloc(128)] returns offset 16,
    payload [16, 144), and the following [alloc(16)] returns offset 128,
    payload [128, 144). *)
Theorem alloc_payloads_overlap :
  blocks s4096 = 256 /\
  b128.1.1 = Some 16 /\ b128_16.1.1 = Some 128 /\
  ~ ranges_disjoint 16 128 128 16.
Proof.
  split; [vm_compute; reflexivity|].
  split; [vm_compute; reflexivity|].
  split; [vm_compute; reflexivity|].
  unfold ranges_disjoint. lia.
Qed.

(** C3 (the code departs from it).  Claim: a release whose guards match
    clears exactly [blockCount] bits starting at the header's block index
    and changes no other bit.
    After [alloc(16)] and [alloc(32)] on a fresh 128-byte pool, releasing
    the second pointer (offset 64, header block 3, block count 4, guards
    equal) turns the bitmap byte from 82 into 5: the bits of blocks 0 and
    2, outside [3, 7), are set and that of block 1 is cleared. *)
Theorem free_mem_flips_other_bits :
  a16_32.1.1 = Some 64 /\
  hdr_blk a16_32.1.2 64 = 4 /\
  hdr_magic a16_32.1.2 64 = ftr_magic a16_32.1.2 64 /\
  free_index 64 = 3 /\
  bitmap a16_32.1.2 !! 0 = Some 82 /\
  bitmap (free_mem a16_32.1.2 64).1 !! 0 = Some 5 /\
  IS_FREE (bitmap a16_32.1.2) 0 = true /\
  IS_FREE (bitmap (free_mem a16_32.1.2 64).1) 0 = false /\
  IS_FREE (bitmap a16_32.1.2) 1 = false /\
  IS_FREE (bitmap (free_mem a16_32.1.2 64).1) 1 = true.
Proof. vm_compute. repeat split; reflexivity. Qed.

(** C4, as claimed, fails: the header that [alloc(0)] writes has block
    count 2, below 3, and releasing that pointer is not treated as
    corruption: the footer word is read (it is the payload address
    itself), the guards match, the poison flag stays clear and the bitmap
    is rewritten. *)
Lemma free_mem_accepts_count_2 :
  a0.1.1 = Some 16 /\
  hdr_blk a0.1.2 16 = 2 /\
  ~ plausible a0.1.2 16 (hdr_blk a0.1.2 16) /\
  free_mem a0.1.2 16 <> (with_poison a0.1.2 1, [poison_msg]) /\
  poison (free_mem a0.1.2 16).1 = 0 /\
  (free_mem a0.1.2 16).2 = [] /\
  bitmap a0.1.2 !! 0 = Some 2 /\
  bitmap (free_mem a0.1.2 16).1 !! 0 = Some 0.
Proof.
  assert (E : hdr_blk a0.1.2 16 = 2) by (vm_compute; reflexivity).
  assert (O : (free_mem a0.1.2 16).2 = []) by (vm_compute; reflexivity).
  split; [vm_compute; reflexivity|].
  split; [exact E|].
  split; [rewrite E; unfold plausible; lia|].
  split; [intros H; rewrite H in O; discriminate O|].
  split; [vm_compute; reflexivity|].
  split; [exact O|].
  split; vm_compute; reflexivity.
Qed.

(** C4 (amended).  [free_mem] makes no check on the stored block count:
    whatever it is, the word at [data + (blockCount - 2) * 16] (modulo
    2^64) is read, and the release is treated as corruption exactly when
    that word differs from the header's magic.  When they are equal the
    poison flag keeps its value and nothing is reported. *)
Theorem free_mem_guard_is_only_check (st : state) (data : Z) :
  (free_mem st data = (with_poison st 1, [poison_msg]) <->
   hdr_magic st data <> load64 (mem st) (ftr_addr data (hdr_blk st data))) /\
  ((free_mem st data).2 = [] <->
   hdr_magic st data = load64 (mem st) (ftr_addr data (hdr_blk st data))) /\
  ((free_mem st data).2 = [] -> poison (free_mem st data).1 = poison st).
Proof.
  unfold free_mem, ftr_magic.
  destruct (hdr_magic st data =? load64 (mem st) (ftr_addr data (hdr_blk st data))) eqn:E;
    cbn [negb fst snd].
  - apply Z.eqb_eq in E. repeat split; try congruence; try tauto.
  - apply Z.eqb_neq in E. repeat split; try congruence; try tauto.
Qed.

(** C5.  When the footer's stored magic differs from the header's,
    [free_mem] sets the poison flag, reports the condition and leaves the
    bitmap (and the pool) as they were, so every block keeps the
    occupancy it had. *)
Theorem free_mem_mismatch_poisons (st : state) (data : Z) :
  hdr_magic st data <> ftr_magic st data ->
  free_mem st data = (with_poison st 1, [poison_msg]) /\
  poison (free_mem st data).1 = 1 /\
  (free_mem st data).2 = [poison_msg] /\
  bitmap (free_mem st data).1 = bitmap st /\
  mem (free_mem st data).1 = mem st /\
  blocks (free_mem st data).1 = blocks st /\
  (forall j, IS_FREE (bitmap (free_mem st data).1) j = IS_FREE (bitmap st) j).
Proof.
  intros H. unfold free_mem.
  replace (hdr_magic st data =? ftr_magic st data) with false
    by (symmetry; apply Z.eqb_neq; exact H).
  cbn [negb fst snd]. repeat split.
Qed.

Lemma free_mem_mismatch_poisons_witness :
  hdr_magic overrun 16 <> ftr_magic overrun 16 /\
  poison (free_mem overrun 16).1 = 1 /\
  (free_mem overrun 16).2 = [poison_msg] /\
  bitmap (free_mem overrun 16).1 = bitmap overrun.
Proof.
  assert (H : hdr_magic overrun 16 <> ftr_magic overrun 16)
    by (vm_compute; discriminate).
  split; [exact H|].
  destruct (free_mem_mismatch_poisons overrun 16 H) as (_ & H1 & H2 & H3 & _).
  split; [exact H1|]. split; [exact H2|exact H3].
Defined.

(** C6 (the code departs from it).  Claim: the guards written by two
    successful allocations are distinct, also within one clock tick.
    The guard is [time(0)], which the comments of [alloc] take to be
    unique on every call.  Two allocations made within one clock tick,
    [alloc(16)] twice on a fresh 128-byte pool, both succeed and their
    headers carry the same guard. *)
Lemma guards_collide_in_one_tick :
  a16.1.1 = Some 16 /\ a16_16.1.1 = Some 64 /\
  hdr_magic a16_16.1.2 16 = tick /\
  hdr_magic a16_16.1.2 64 = tick /\
  hdr_magic a16_16.1.2 16 = hdr_magic a16_16.1.2 64.
Proof. vm_compute. repeat split; reflexivity. Qed.

(** X19.  The guard a successful allocation writes into its header is
    the clock reading [time(0)] of that call, as a 64-bit value.  So the
    guards of two successful allocations differ exactly when their clock
    readings differ. *)
Theorem alloc_guard_is_clock
    (now1 now2 : Z) (st1 st2 : state) (sz1 sz2 p1 p2 : Z)
    (st1' st2' : state) (o1 o2 : list string) :
  blocks st1 < 2 ^ 60 -> blocks st2 < 2 ^ 60 ->
  alloc now1 st1 sz1 = (Some p1, st1', o1) ->
  alloc now2 st2 sz2 = (Some p2, st2', o2) ->
  hdr_magic st1' p1 = wrap64 now1 /\
  hdr_magic st2' p2 = wrap64 now2 /\
  (hdr_magic st1' p1 <> hdr_magic st2' p2 <-> wrap64 now1 <> wrap64 now2).
Proof.
  intros B1 B2 H1 H2.
  rewrite (alloc_hdr_magic _ _ _ _ _ _ B1 H1).
  rewrite (alloc_hdr_magic _ _ _ _ _ _ B2 H2).
  repeat split; tauto.
Qed.

Lemma alloc_guard_is_clock_witness :
  blocks s128 < 2 ^ 60 /\ blocks a16.1.2 < 2 ^ 60 /\
  alloc tick s128 16 = (Some 16, a16.1.2, []) /\
  alloc tick a16.1.2 16 = (Some 64, a16_16.1.2, []) /\
  hdr_magic a16.1.2 16 = wrap64 tick /\
  hdr_magic a16_16.1.2 64 = wrap64 tick /\
  (hdr_magic a16.1.2 16 <> hdr_magic a16_16.1.2 64 <->
   wrap64 tick <> wrap64 tick).
Proof.
  assert (B1 : blocks s128 < 2 ^ 60) by (vm_compute; reflexivity).
  assert (B2 : blocks a16.1.2 < 2 ^ 60) by (vm_compute; reflexivity).
  assert (H1 : alloc tick s128 16 = (Some 16, a16.1.2, []))
    by (vm_compute; reflexivity).
  assert (H2 : alloc tick a16.1.2 16 = (Some 64, a16_16.1.2, []))
    by (vm_compute; reflexivity).
  split; [exact B1|]. split; [exact B2|].
  split; [exact H1|]. split; [exact H2|].
  exact (alloc_guard_is_clock tick tick s128 a16.1.2 16 16 16 64
           a16.1.2 a16_16.1.2 [] [] B1 B2 H1 H2).
Defined.

(** C7 (the code departs from it).  Claim: when no contiguous free run
    of the required length exists, [alloc] returns null and leaves the
    bitmap unchanged.
    A 64-byte pool has 4 blocks.  After one [alloc(16)] (3 blocks) no
    window of 3 blocks inside the pool passes the free test, and yet a
    second [alloc(16)] returns offset 64, the end of the pool, and turns
    the bitmap byte from 5 into 45.  (When the search itself finds
    nothing, the state is indeed untouched: [alloc_search_fails].) *)
Theorem alloc_succeeds_on_exhausted_pool :
  blocks c16.1.2 = 4 /\ pool c16.1.2 = 64 /\ alloc_blk 16 = 3 /\
  poison c16.1.2 = 0 /\
  (forall i, 0 <= i -> i + alloc_blk 16 <= blocks c16.1.2 ->
     run_free (bitmap c16.1.2) i (Z.to_nat (alloc_blk 16)) = false) /\
  c16_16.1.1 = Some 64 /\
  bitmap c16.1.2 !! 0 = Some 5 /\
  bitmap c16_16.1.2 !! 0 = Some 45.
Proof.
  assert (Eb : blocks c16.1.2 = 4) by (vm_compute; reflexivity).
  assert (Ek : alloc_blk 16 = 3) by (vm_compute; reflexivity).
  split; [exact Eb|].
  split; [vm_compute; reflexivity|].
  split; [exact Ek|].
  split; [vm_compute; reflexivity|].
  split.
  { intros i Hi Hle. rewrite Eb, Ek in *.
    assert (i = 0 \/ i = 1) as [->| ->] by lia; vm_compute; reflexivity. }
  split; [vm_compute; reflexivity|].
  split; vm_compute; reflexivity.
Qed.

(** C8.  From the Poisoned and from the Uninitialized state [alloc]
    returns null for every size and every clock reading, and hands the
    whole state (pool, bitmap, block count, flag) back unchanged. *)
Theorem alloc_fails_unless_ready (now : Z) (st : state) (sz : Z) :
  phase_of st <> Ready ->
  (alloc now st sz).1.1 = None /\ (alloc now st sz).1.2 = st.
Proof.
  intros H.
  assert (N : (alloc now st sz).1.1 = None).
  { unfold phase_of in H. unfold alloc.
    destruct (negb (poison st =? 0)); [reflexivity|].
    destruct (blocks st =? 0) eqn:E; [|congruence].
    apply Z.eqb_eq in E. rewrite E. reflexivity. }
  split; [exact N|]. apply alloc_None_unchanged. exact N.
Qed.

Lemma alloc_fails_unless_ready_witness :
  phase_of (with_poison a16.1.2 1) <> Ready /\
  phase_of boot <> Ready /\
  (alloc tick (with_poison a16.1.2 1) 16).1.1 = None /\
  (alloc tick (with_poison a16.1.2 1) 16).1.2 = with_poison a16.1.2 1 /\
  (alloc tick boot 16).1.1 = None /\
  (alloc tick boot 16).1.2 = boot.
Proof.
  assert (P : phase_of (with_poison a16.1.2 1) <> Ready)
    by (vm_compute; discriminate).
  assert (U : phase_of boot <> Ready) by (vm_compute; discriminate).
  split; [exact P|]. split; [exact U|].
  destruct (alloc_fails_unless_ready tick (with_poison a16.1.2 1) 16 P) as [H1 H2].
  destruct (alloc_fails_unless_ready tick boot 16 U) as [H3 H4].
  split; [exact H1|]. split; [exact H2|]. split; [exact H3|exact H4].
Defined.

(** C9 (the code departs from it).  Claim: every successful [alloc]
    selects a run inside the pool, [i + blk <= blocks], so no bitmap index
    at or above [blocks] is used and the footer lies in the pool.
    On a fresh 64-byte pool (4 blocks) [alloc(48)] needs 5 blocks; the
    search selects [i = 0], the call returns offset 16, the blocks 4 and
    5 are run through [MARK] (block 4 then tests occupied) and the footer
    guard is stored at byte 64, the first byte past the pool. *)
Theorem alloc_run_leaves_pool :
  blocks s64 = 4 /\ pool s64 = 64 /\ alloc_blk 48 = 5 /\
  find_run (bitmap s64) (alloc_blk 48) 0 (Z.to_nat (blocks s64)) = Some 0 /\
  c48.1.1 = Some 16 /\
  bitmap c48.1.2 !! 0 = Some 21 /\
  IS_FREE (bitmap c48.1.2) 4 = false /\
  load64 (mem s64) 64 = 0 /\
  load64 (mem c48.1.2) 64 = tick.
Proof. vm_compute. repeat split; reflexivity. Qed.

(** * Further properties of the code *)

(** ** The shift and the two macros *)

Lemma shl1_defined j : 0 <= j < 31 -> shl1 j = 2 ^ j.
Proof.
  intros Hj. unfold shl1, int32.
  rewrite (Z.mod_small j 32) by lia.
  rewrite Z.shiftl_1_l.
  assert (0 < 2 ^ j) by (apply Z.pow_pos_nonneg; lia).
  assert (2 ^ j < 2 ^ 31) by (apply Z.pow_lt_mono_r; lia).
  rewrite Z.mod_small by lia. lia.
Qed.

Lemma mask_defined j : 0 <= j < 31 -> int32 (shl1 j - 1) = 2 ^ j - 1.
Proof.
  intros Hj. rewrite shl1_defined by exact Hj. unfold int32.
  assert (0 < 2 ^ j) by (apply Z.pow_pos_nonneg; lia).
  assert (2 ^ j < 2 ^ 31) by (apply Z.pow_lt_mono_r; lia).
  rewrite Z.mod_small by lia. lia.
Qed.

Lemma testbit_byte_high b n : 0 <= b < 256 -> 8 <= n -> Z.testbit b n = false.
Proof.
  intros Hb Hn. destruct (decide (b = 0)) as [->|Hne]; [apply Z.bits_0|].
  apply Z.bits_above_log2; [lia|].
  assert (Z.log2 b < 8); [|lia].
  apply Z.log2_lt_pow2; lia.
Qed.

(** [b & 2^j] is zero exactly when bit [j] of [b] is clear. *)
Lemma land_pow2_eqb b j :
  0 <= j -> (Z.land b (2 ^ j) =? 0) = negb (Z.testbit b j).
Proof.
  intros Hj. destruct (Z.testbit b j) eqn:E; cbn [negb].
  - apply Z.eqb_neq. intros H.
    apply (f_equal (fun z => Z.testbit z j)) in H.
    rewrite Z.land_spec, E, Z.pow2_bits_true, Z.bits_0 in H by lia.
    discriminate H.
  - apply Z.eqb_eq. apply Z.bits_inj'. intros n Hn.
    rewrite Z.land_spec, Z.bits_0, Z.pow2_bits_eqb by lia.
    destruct (Z.eqb_spec j n) as [->|Hne];
      [rewrite E; reflexivity | apply andb_false_r].
Qed.

Lemma IS_FREE_testbit bm j :
  0 <= j < 31 -> IS_FREE bm j = negb (Z.testbit (byte_at bm (j / 8)) j).
Proof.
  intros Hj. unfold IS_FREE. rewrite shl1_defined by exact Hj.
  apply land_pow2_eqb. lia.
Qed.

Lemma wrap8_testbit x n :
  0 <= n -> Z.testbit (wrap8 x) n = Z.testbit x n && (n <? 8).
Proof.
  intros Hn. unfold wrap8. destruct (Z.ltb_spec n 8).
  - rewrite Z.mod_pow2_bits_low by lia. symmetry. apply andb_true_r.
  - rewrite Z.mod_pow2_bits_high by lia. symmetry. apply andb_false_r.
Qed.

Lemma wrap8_range x : 0 <= wrap8 x < 256.
Proof. unfold wrap8. apply Z.mod_pos_bound. lia. Qed.

Lemma wrap8_small x : 0 <= x < 256 -> wrap8 x = x.
Proof. intros H. unfold wrap8. apply Z.mod_small. exact H. Qed.

Lemma wrap8_lxor_l x y : wrap8 (Z.lxor (wrap8 x) y) = wrap8 (Z.lxor x y).
Proof.
  apply Z.bits_inj'. intros n Hn.
  rewrite !wrap8_testbit, !Z.lxor_spec, wrap8_testbit by lia.
  destruct (Z.testbit x n), (Z.testbit y n), (n <? 8); reflexivity.
Qed.

Lemma byte_at_MARK bm j k :
  byte_at (MARK bm j) k =
  if decide (j / 8 = k)
  then wrap8 (Z.lxor (byte_at bm k) (int32 (shl1 j - 1)))
  else byte_at bm k.
Proof.
  unfold MARK, byte_at. destruct (decide (j / 8 = k)) as [->|Hne].
  - rewrite lookup_insert_eq. reflexivity.
  - rewrite lookup_insert_ne by exact Hne. reflexivity.
Qed.

Lemma bytes_ok_at m k : bytes_ok m -> 0 <= byte_at m k < 256.
Proof.
  intros H. unfold byte_at. destruct (m !! k) as [v|] eqn:E; cbn; [|lia].
  exact (H k v E).
Qed.

Lemma MARK_bytes_ok bm j : bytes_ok bm -> bytes_ok (MARK bm j).
Proof.
  intros H. unfold MARK. apply map_Forall_insert_2; [apply wrap8_range|exact H].
Qed.

(** X17.  With a shift count of 8 or more the mask of [IS_FREE] has no
    bit in common with a bitmap byte: every block with index 8 to 30
    tests free, whatever the bitmap holds. *)
Theorem blocks_from_8_always_test_free (bm : gmap Z Z) (j : Z) :
  bytes_ok bm -> 8 <= j < 31 -> IS_FREE bm j = true.
Proof.
  intros Hb Hj. rewrite IS_FREE_testbit by lia.
  rewrite testbit_byte_high; [reflexivity|apply bytes_ok_at, Hb|lia].
Qed.

Lemma blocks_from_8_always_test_free_witness :
  bytes_ok (bitmap b128.1.2) /\ 8 <= 9 < 31 /\
  byte_at (bitmap b128.1.2) 1 = 255 /\
  IS_FREE (bitmap b128.1.2) 9 = true.
Proof.
  assert (Hb : bytes_ok (bitmap b128.1.2))
    by (apply (bool_decide_unpack _); vm_compute; exact I).
  assert (Hj : 8 <= 9 < 31) by lia.
  split; [exact Hb|]. split; [exact Hj|].
  split; [vm_compute; reflexivity|].
  exact (blocks_from_8_always_test_free (bitmap b128.1.2) 9 Hb Hj).
Defined.

(** X18.  [MARK(j)] xors the byte with the bits below [j], so it never
    touches bit [j], the one [IS_FREE(j)] reads: after marking block [j]
    the block tests exactly as it did before. *)
Theorem MARK_keeps_own_test (bm : gmap Z Z) (j : Z) :
  bytes_ok bm -> 0 <= j < 31 -> IS_FREE (MARK bm j) j = IS_FREE bm j.
Proof.
  intros Hb Hj. rewrite !IS_FREE_testbit by lia. f_equal.
  rewrite byte_at_MARK. destruct (decide (j / 8 = j / 8)); [|congruence].
  rewrite mask_defined by lia.
  rewrite wrap8_testbit, Z.lxor_spec by lia.
  replace (2 ^ j - 1) with (Z.ones j) by (rewrite Z.ones_equiv; lia).
  rewrite Z.ones_spec_high, xorb_false_r by lia.
  destruct (Z.ltb_spec j 8); [apply andb_true_r|].
  rewrite andb_false_r. symmetry.
  apply testbit_byte_high; [apply bytes_ok_at, Hb|lia].
Qed.

Lemma MARK_keeps_own_test_witness :
  bytes_ok (bitmap s128) /\ 0 <= 2 < 31 /\
  IS_FREE (bitmap s128) 2 = true /\
  byte_at (MARK (bitmap s128) 2) 0 = 3 /\
  IS_FREE (MARK (bitmap s128) 2) 2 = IS_FREE (bitmap s128) 2.
Proof.
  assert (Hb : bytes_ok (bitmap s128))
    by (apply (bool_decide_unpack _); vm_compute; exact I).
  assert (Hj : 0 <= 2 < 31) by lia.
  split; [exact Hb|]. split; [exact Hj|].
  split; [vm_compute; reflexivity|].
  split; [vm_compute; reflexivity|].
  exact (MARK_keeps_own_test (bitmap s128) 2 Hb Hj).
Defined.

(** ** The marking loop, byte by byte *)

Lemma mark_loop_bytes_ok bm j n : bytes_ok bm -> bytes_ok (mark_loop bm j n).
Proof.
  revert bm j. induction n as [|n IH]; intros bm j H; [exact H|].
  cbn [mark_loop]. apply IH, MARK_bytes_ok, H.
Qed.

Lemma mark_loop_byte bm j n k :
  wrap8 (byte_at (mark_loop bm j n) k) =
  wrap8 (Z.lxor (byte_at bm k) (xor_acc j n k)).
Proof.
  revert bm j. induction n as [|n IH]; intros bm j.
  - cbn [mark_loop xor_acc]. rewrite Z.lxor_0_r. reflexivity.
  - cbn [mark_loop xor_acc]. rewrite IH, byte_at_MARK.
    destruct (decide (j / 8 = k)) as [E|E].
    + rewrite wrap8_lxor_l, Z.lxor_assoc. reflexivity.
    + rewrite Z.lxor_0_l. reflexivity.
Qed.

(** Running the same marking loop a second time undoes the first. *)
Lemma mark_loop_twice bm j n :
  bytes_ok bm -> same_bytes (mark_loop (mark_loop bm j n) j n) bm.
Proof.
  intros H k.
  rewrite <- (wrap8_small (byte_at (mark_loop _ j n) k))
    by (apply bytes_ok_at; do 2 apply mark_loop_bytes_ok; exact H).
  rewrite mark_loop_byte.
  rewrite <- wrap8_lxor_l, mark_loop_byte, wrap8_lxor_l.
  rewrite Z.lxor_assoc, Z.lxor_nilpotent, Z.lxor_0_r.
  apply wrap8_small, bytes_ok_at, H.
Qed.

(** The search reads the bitmap through [byte_at] alone. *)
Lemma IS_FREE_ext bm1 bm2 j : same_bytes bm1 bm2 -> IS_FREE bm1 j = IS_FREE bm2 j.
Proof. intros H. unfold IS_FREE. rewrite (H (j / 8)). reflexivity. Qed.

Lemma run_free_ext bm1 bm2 j n :
  same_bytes bm1 bm2 -> run_free bm1 j n = run_free bm2 j n.
Proof.
  intros H. revert j. induction n as [|n IH]; intros j; [reflexivity|].
  cbn [run_free]. rewrite (IS_FREE_ext bm1 bm2 j H), IH. reflexivity.
Qed.

Lemma find_run_ext bm1 bm2 blk i n :
  same_bytes bm1 bm2 -> find_run bm1 blk i n = find_run bm2 blk i n.
Proof.
  intros H. revert i. induction n as [|n IH]; intros i; [reflexivity|].
  cbn [find_run].
  rewrite (IS_FREE_ext bm1 bm2 i H), (run_free_ext bm1 bm2 _ _ H), IH.
  reflexivity.
Qed.

(** ** Rounding to whole blocks *)

Lemma round16_up sz :
  0 <= sz <= 2 ^ 64 - 16 ->
  round16 sz mod 16 = 0 /\ sz <= round16 sz < sz + 16 /\
  round16 sz / 16 = (sz + 15) / 16.
Proof.
  intros H. unfold round16.
  pose proof (Z.div_mod sz 16 ltac:(lia)) as D.
  pose proof (Z.mod_pos_bound sz 16 ltac:(lia)) as B.
  destruct (Z.eqb_spec (sz mod 16) 0) as [E|E]; cbn [negb].
  - rewrite E in D. split; [exact E|]. split; [lia|].
    apply (Z.div_unique (sz + 15) 16 (sz / 16) 15); lia.
  - rewrite wrap64_small by lia.
    replace (sz + (16 - sz mod 16)) with ((sz / 16 + 1) * 16) by lia.
    split; [apply Z.mod_mul; lia|]. split; [lia|].
    rewrite Z.div_mul by lia.
    apply (Z.div_unique (sz + 15) 16 (sz / 16 + 1) (sz mod 16 - 1)); lia.
Qed.

Lemma alloc_blk_range sz :
  0 <= sz <= 2 ^ 64 - 32 -> 2 <= alloc_blk sz <= 2 ^ 60.
Proof.
  intros H. unfold alloc_blk.
  destruct (round16_up sz ltac:(lia)) as (M & R & _).
  apply Z.mod_divide in M as [q Hq]; [|lia].
  rewrite Hq, Z.div_mul by lia.
  rewrite wrap64_small by lia. lia.
Qed.

(** X1.  A size up to [2^64 - 16] is rounded up to the next multiple of
    16, at most 15 bytes more, and the request takes that many blocks
    plus two for the header and the footer. *)
Theorem alloc_rounds_up_to_blocks (sz : Z) :
  0 <= sz <= 2 ^ 64 - 16 ->
  round16 sz mod 16 = 0 /\ sz <= round16 sz < sz + 16 /\
  alloc_blk sz = (sz + 15) / 16 + 2.
Proof.
  intros H. destruct (round16_up sz H) as (M & R & D).
  split; [exact M|]. split; [exact R|].
  unfold alloc_blk. rewrite D. apply wrap64_small.
  assert (0 <= (sz + 15) / 16) by (apply Z.div_pos; lia).
  assert ((sz + 15) / 16 < 2 ^ 60) by (apply Z.div_lt_upper_bound; lia).
  lia.
Qed.

Lemma alloc_rounds_up_to_blocks_witness :
  0 <= 81 <= 2 ^ 64 - 16 /\
  round16 81 = 96 /\ round16 81 mod 16 = 0 /\ 81 <= round16 81 < 81 + 16 /\
  alloc_blk 81 = (81 + 15) / 16 + 2.
Proof.
  assert (H : 0 <= 81 <= 2 ^ 64 - 16) by lia.
  split; [exact H|]. split; [reflexivity|].
  exact (alloc_rounds_up_to_blocks 81 H).
Defined.

(** ** alloc_init *)

Lemma IS_FREE_zero_byte bm j : byte_at bm (j / 8) = 0 -> IS_FREE bm j = true.
Proof. intros H. unfold IS_FREE. rewrite H, Z.land_0_l. reflexivity. Qed.

Lemma run_free_zero bm j n :
  (forall k, byte_at bm k = 0) -> run_free bm j n = true.
Proof.
  intros H. revert j. induction n as [|n IH]; intros j; [reflexivity|].
  cbn [run_free]. rewrite IS_FREE_zero_byte by apply H. apply IH.
Qed.

Lemma alloc_init_sys_ok heap bmp st p0 st' :
  alloc_init_sys heap bmp st p0 = InitOk st' ->
  round16 p0 <> 0 /\ heap = Granted /\ bmp = Granted /\ st' = alloc_init st p0.
Proof.
  unfold alloc_init_sys, mmap_len. intros H.
  destruct (Z.eqb_spec (round16 p0) 0) as [E|E]; [discriminate H|].
  destruct heap; [|discriminate H].
  destruct (_ =? 0); [discriminate H|].
  destruct bmp; [|discriminate H].
  injection H as <-. repeat split. exact E.
Qed.

(** A size for which the pool is granted is in the range where the
    rounding does not wrap. *)
Lemma granted_size p0 :
  0 <= p0 < 2 ^ 64 -> round16 p0 <> 0 -> 0 < p0 <= 2 ^ 64 - 16.
Proof.
  intros Hr Hn. split.
  - destruct (decide (p0 = 0)) as [->|]; [|lia]. contradiction Hn. reflexivity.
  - destruct (Z_le_gt_dec p0 (2 ^ 64 - 16)) as [L|G]; [exact L|].
    contradiction Hn. apply round16_top. lia.
Qed.



(** X3.  [alloc_init] does not reset the poison flag: initialising a
    poisoned allocator again gives a pool from which every [alloc] still
    returns null, without a message. *)
Theorem alloc_init_keeps_poison (st : state) (p0 now sz : Z) :
  poison st <> 0 ->
  poison (alloc_init st p0) = poison st /\
  alloc now (alloc_init st p0) sz = (None, alloc_init st p0, []).
Proof.
  intros H. split; [reflexivity|].
  unfold alloc. cbn [poison alloc_init].
  replace (poison st =? 0) with false by (symmetry; apply Z.eqb_neq; exact H).
  reflexivity.
Qed.

Lemma alloc_init_keeps_poison_witness :
  poison (free_mem overrun 16).1 <> 0 /\
  poison (alloc_init (free_mem overrun 16).1 4096) = poison (free_mem overrun 16).1 /\
  alloc tick (alloc_init (free_mem overrun 16).1 4096) 16 =
    (None, alloc_init (free_mem overrun 16).1 4096, []).
Proof.
  assert (H : poison (free_mem overrun 16).1 <> 0) by (vm_compute; discriminate).
  split; [exact H|].
  exact (alloc_init_keeps_poison (free_mem overrun 16).1 4096 tick 16 H).
Defined.

(** X4.  When [alloc_init] gets both regions, the bitmap it asked for
    has [pool / 128] bytes, rounded down (one at least).  It has a bit
    for every block exactly when the rounded pool is smaller than 128
    bytes or a multiple of 128; otherwise the last blocks of the pool lie
    past the bitmap. *)
Theorem bitmap_covers_blocks_iff (heap bmp : answer) (st : state) (p0 : Z)
    (st' : state) :
  0 <= p0 < 2 ^ 64 ->
  alloc_init_sys heap bmp st p0 = InitOk st' ->
  (blocks st' <= 8 * bitmap_sz st' <->
   pool st' < 128 \/ pool st' mod 128 = 0).
Proof.
  intros Hr H. apply alloc_init_sys_ok in H as (Hn & _ & _ & ->).
  pose proof (granted_size p0 Hr Hn) as Hp.
  destruct (round16_up p0 ltac:(lia)) as (M & R & _).
  unfold alloc_init. cbn [blocks bitmap_sz pool].
  set (p := round16 p0) in *.
  apply Z.mod_divide in M as [q Hq]; [|lia].
  rewrite Hq, Z.div_mul by lia.
  pose proof (Z.div_mod q 8 ltac:(lia)) as D.
  pose proof (Z.mod_pos_bound q 8 ltac:(lia)) as B.
  assert (E1 : q * 16 / 128 = q / 8).
  { symmetry. apply (Z.div_unique (q * 16) 128 (q / 8) (16 * (q mod 8))); lia. }
  assert (E2 : (q * 16) mod 128 = 16 * (q mod 8)).
  { symmetry. apply (Z.mod_unique (q * 16) 128 (q / 8)); lia. }
  rewrite E1, E2.
  destruct (Z.eqb_spec (q / 8) 0) as [Z0|Z0]; lia.
Qed.

Lemma bitmap_covers_blocks_iff_witness :
  0 <= 144 < 2 ^ 64 /\
  alloc_init_sys Granted Granted boot 144 = InitOk (alloc_init boot 144) /\
  blocks (alloc_init boot 144) = 9 /\ bitmap_sz (alloc_init boot 144) = 1 /\
  (blocks (alloc_init boot 144) <= 8 * bitmap_sz (alloc_init boot 144) <->
   pool (alloc_init boot 144) < 128 \/ pool (alloc_init boot 144) mod 128 = 0).
Proof.
  assert (Hr : 0 <= 144 < 2 ^ 64) by lia.
  assert (H : alloc_init_sys Granted Granted boot 144
              = InitOk (alloc_init boot 144)) by reflexivity.
  split; [exact Hr|]. split; [exact H|].
  split; [reflexivity|]. split; [reflexivity|].
  exact (bitmap_covers_blocks_iff Granted Granted boot 144 _ Hr H).
Defined.

(** ** alloc: which run is taken *)

Lemma run_free_zero_below bm hi j n :
  (forall k, 0 <= k < hi -> byte_at bm k = 0) ->
  0 <= j -> j + Z.of_nat n <= 8 * hi ->
  run_free bm j n = true.
Proof.
  intros H. revert j. induction n as [|n IH]; intros j Hj Hn; [reflexivity|].
  cbn [run_free]. rewrite IS_FREE_zero_byte.
  - apply IH; lia.
  - apply H. split; [apply Z.div_pos; lia|apply Z.div_lt_upper_bound; lia].
Qed.

(** X5.  On a pool that is set up and not poisoned, and whose bitmap
    bytes are all zero (a fresh one), a request that needs fewer blocks
    than the pool has is served at once: [alloc] takes the run at block
    0 and returns the offset 16.  Only bitmap bytes inside the bitmap are
    read for it. *)
Theorem first_alloc_takes_block_0 (now : Z) (st : state) (sz : Z) :
  poison st = 0 -> set_up st ->
  (forall k, 0 <= k < bitmap_sz st -> byte_at (bitmap st) k = 0) ->
  alloc_blk sz < blocks st ->
  alloc now st sz = (Some 16, place now st (alloc_blk sz) 0, []).
Proof.
  intros Hp (Hb & _ & Hc) Hz Hk. unfold alloc. rewrite Hp. cbn [negb Z.eqb].
  pose proof (wrap64_range (round16 sz / 16 + 2)) as Hr.
  fold (alloc_blk sz) in Hr.
  destruct (Z.to_nat (blocks st)) as [|n] eqn:En; [lia|].
  cbn [find_run].
  rewrite IS_FREE_zero_byte by (change (0 / 8) with 0; apply Hz; lia).
  rewrite (run_free_zero_below _ (bitmap_sz st)).
  - reflexivity.
  - exact Hz.
  - lia.
  - cbn [Z.add]. rewrite wrap64_small by lia. unfold trip. lia.
Qed.

Lemma first_alloc_takes_block_0_witness :
  poison s128 = 0 /\ set_up s128 /\
  (forall k, 0 <= k < bitmap_sz s128 -> byte_at (bitmap s128) k = 0) /\
  alloc_blk 80 < blocks s128 /\
  alloc tick s128 80 = (Some 16, place tick s128 (alloc_blk 80) 0, []).
Proof.
  assert (Hp : poison s128 = 0) by reflexivity.
  assert (Hs : set_up s128).
  { unfold set_up.
    replace (blocks s128) with 8 by reflexivity.
    replace (pool s128) with 128 by reflexivity.
    replace (bitmap_sz s128) with 1 by reflexivity. lia. }
  assert (Hz : forall k, 0 <= k < bitmap_sz s128 -> byte_at (bitmap s128) k = 0)
    by (intros k _; reflexivity).
  assert (Hk : alloc_blk 80 < blocks s128) by (vm_compute; reflexivity).
  split; [exact Hp|]. split; [exact Hs|]. split; [exact Hz|]. split; [exact Hk|].
  exact (first_alloc_takes_block_0 tick s128 80 Hp Hs Hz Hk).
Defined.

(** X6.  [alloc] is first fit: a successful call returns the payload
    address of the lowest block index below [blocks] that passes the
    test of the search, [16 * (i + 1)] past the pool base. *)
Theorem alloc_first_fit (now : Z) (st : state) (sz p : Z)
    (st' : state) (out : list string) :
  alloc now st sz = (Some p, st', out) ->
  exists i,
    0 <= i < blocks st /\ p = wrap64 ((i + 1) * 16) /\
    fits (bitmap st) (alloc_blk sz) i = true /\
    (forall k, 0 <= k < i -> fits (bitmap st) (alloc_blk sz) k = false).
Proof.
  intros H. apply alloc_Some in H as (_ & i & Hf & -> & _).
  exists i.
  pose proof (find_run_Some _ _ _ _ _ Hf) as (Hi & H1 & H2).
  split; [lia|]. split; [reflexivity|].
  split; [unfold fits; rewrite H1, H2; reflexivity|].
  intros k Hk. exact (find_run_first _ _ _ _ _ k Hf Hk).
Qed.

Lemma alloc_first_fit_witness :
  alloc tick a16.1.2 16 = (Some 64, a16_16.1.2, []) /\
  exists i,
    0 <= i < blocks a16.1.2 /\ 64 = wrap64 ((i + 1) * 16) /\
    fits (bitmap a16.1.2) (alloc_blk 16) i = true /\
    (forall k, 0 <= k < i -> fits (bitmap a16.1.2) (alloc_blk 16) k = false).
Proof.
  assert (H : alloc tick a16.1.2 16 = (Some 64, a16_16.1.2, []))
    by (vm_compute; reflexivity).
  split; [exact H|].
  exact (alloc_first_fit tick a16.1.2 16 64 a16_16.1.2 [] H).
Defined.

(** X7.  An unpoisoned [alloc] returns null exactly when no block index
    below [blocks] passes the test of the search; it then reports the
    exhaustion and returns the state as it was. *)
Theorem alloc_null_iff_nothing_fits (now : Z) (st : state) (sz : Z) :
  poison st = 0 ->
  ((alloc now st sz).1.1 = None <->
   forall k, 0 <= k < blocks st -> fits (bitmap st) (alloc_blk sz) k = false) /\
  ((alloc now st sz).1.1 = None ->
   alloc now st sz = (None, st, [exhausted_msg])).
Proof.
  intros Hp. unfold alloc. rewrite Hp. cbn [negb Z.eqb].
  destruct (find_run _ _ _ _) as [i|] eqn:Hf; cbn [fst snd].
  - pose proof (find_run_Some _ _ _ _ _ Hf) as (Hi & H1 & H2).
    split; [|discriminate]. split; [discriminate|].
    intros H. specialize (H i ltac:(lia)).
    unfold fits in H. rewrite H1, H2 in H. discriminate H.
  - split; [|reflexivity]. split; [|reflexivity].
    intros _ k Hk. apply (find_run_None _ _ _ _ k Hf). lia.
Qed.

Lemma alloc_null_iff_nothing_fits_witness :
  poison c16_16.1.2 = 0 /\
  alloc tick c16_16.1.2 16 = (None, c16_16.1.2, [exhausted_msg]) /\
  ((alloc tick c16_16.1.2 16).1.1 = None <->
   forall k, 0 <= k < blocks c16_16.1.2 ->
     fits (bitmap c16_16.1.2) (alloc_blk 16) k = false) /\
  ((alloc tick c16_16.1.2 16).1.1 = None ->
   alloc tick c16_16.1.2 16 = (None, c16_16.1.2, [exhausted_msg])).
Proof.
  assert (Hp : poison c16_16.1.2 = 0) by (vm_compute; reflexivity).
  split; [exact Hp|].
  split; [vm_compute; reflexivity|].
  exact (alloc_null_iff_nothing_fits tick c16_16.1.2 16 Hp).
Defined.

(** ** alloc: what is written *)

Lemma store64_other m a v x :
  0 <= a -> a + 8 <= 2 ^ 64 -> x < a \/ a + 8 <= x ->
  store64 m a v !! x = m !! x.
Proof.
  intros Ha Hb Hx. unfold store64. apply store_bytes_other.
  intros k Hk. rewrite encode_length in Hk.
  rewrite wrap64_small by lia. lia.
Qed.

Lemma wrap64_add_ne a d : 0 <= a < 2 ^ 64 -> 0 < d < 2 ^ 64 -> wrap64 (a + d) <> a.
Proof.
  intros Ha Hd H. unfold wrap64 in H.
  pose proof (Z.div_mod (a + d) (2 ^ 64) ltac:(lia)) as D.
  rewrite H in D. lia.
Qed.

(** The footer of a run of [blk] blocks at block [i]: a block other than
    the header. *)
Lemma footer_block i blk :
  0 <= i < 2 ^ 60 -> 2 <= blk <= 2 ^ 60 ->
  exists f, 0 <= f < 2 ^ 60 /\ f <> i /\
            wrap64 (i * 16 + (blk - 1) * 16) = f * 16.
Proof.
  intros Hi Hb.
  pose proof (wrap64_range (i * 16 + (blk - 1) * 16)) as R.
  assert (M : wrap64 (i * 16 + (blk - 1) * 16) mod 16 = 0).
  { rewrite wrap64_mod16.
    replace (i * 16 + (blk - 1) * 16) with ((i + (blk - 1)) * 16) by lia.
    apply Z.mod_mul. lia. }
  apply Z.mod_divide in M as [f Hf]; [|lia].
  exists f. split; [lia|]. split; [|exact Hf].
  intros ->. apply (wrap64_add_ne (i * 16) ((blk - 1) * 16)); lia.
Qed.

Lemma place_mem now st blk i f :
  0 <= i < 2 ^ 60 -> 2 <= blk <= 2 ^ 60 ->
  wrap64 (i * 16 + (blk - 1) * 16) = f * 16 ->
  mem (place now st blk i) =
  store64 (store64 (store64 (store64 (mem st) (i * 16) blk)
                      (i * 16 + 8) (wrap64 now))
             (f * 16) (wrap64 now))
    (f * 16 + 8) (wrap64 now).
Proof.
  intros Hi Hb Hf. unfold place. cbn [mem].
  rewrite (wrap64_small (i * 16)) by lia.
  rewrite (wrap64_small ((blk - 1) * 16)) by lia.
  rewrite Hf. reflexivity.
Qed.

Lemma alloc_shape now st sz p st' out :
  blocks st < 2 ^ 60 -> 0 <= sz <= 2 ^ 64 - 32 ->
  alloc now st sz = (Some p, st', out) ->
  exists i f,
    0 <= i < 2 ^ 60 - 1 /\ i < blocks st /\ 0 <= f < 2 ^ 60 /\ f <> i /\
    find_run (bitmap st) (alloc_blk sz) 0 (Z.to_nat (blocks st)) = Some i /\
    p = (i + 1) * 16 /\
    ftr_addr p (alloc_blk sz) = f * 16 /\
    st' = place now st (alloc_blk sz) i /\
    mem st' =
      store64 (store64 (store64 (store64 (mem st) (i * 16) (alloc_blk sz))
                          (i * 16 + 8) (wrap64 now))
                 (f * 16) (wrap64 now))
        (f * 16 + 8) (wrap64 now).
Proof.
  intros Hb Hs H.
  pose proof (alloc_blk_range sz Hs) as Hk.
  apply alloc_Some in H as (_ & i & Hf & -> & -> & _).
  pose proof (find_run_Some _ _ _ _ _ Hf) as (Hi & _).
  assert (Hi' : 0 <= i < 2 ^ 60 - 1) by lia.
  destruct (footer_block i (alloc_blk sz) ltac:(lia) Hk) as (f & Hf1 & Hf2 & Hf3).
  exists i, f.
  split; [exact Hi'|]. split; [lia|]. split; [exact Hf1|]. split; [exact Hf2|].
  split; [exact Hf|].
  split; [apply wrap64_small; lia|].
  split.
  { unfold ftr_addr. rewrite (wrap64_small ((i + 1) * 16)) by lia.
    rewrite (wrap64_small ((alloc_blk sz - 2) * 16)) by lia.
    rewrite <- Hf3. f_equal. lia. }
  split; [reflexivity|].
  apply place_mem; [lia|exact Hk|exact Hf3].
Qed.

(** The four guard words, read back from the memory [alloc] leaves. *)
Lemma guard_words m i f blk magic :
  0 <= i < 2 ^ 60 -> 0 <= f < 2 ^ 60 -> f <> i ->
  0 <= blk < 2 ^ 64 -> 0 <= magic < 2 ^ 64 ->
  let m' := store64 (store64 (store64 (store64 m (i * 16) blk)
                                (i * 16 + 8) magic) (f * 16) magic)
              (f * 16 + 8) magic in
  load64 m' (i * 16) = blk /\ load64 m' (i * 16 + 8) = magic /\
  load64 m' (f * 16) = magic /\ load64 m' (f * 16 + 8) = magic.
Proof.
  intros Hi Hf Hne Hb Hm m'. unfold m'.
  repeat split.
  - rewrite !load64_store64_disjoint by lia. apply load64_store64_same; lia.
  - rewrite !load64_store64_disjoint by lia. apply load64_store64_same; lia.
  - rewrite !load64_store64_disjoint by lia. apply load64_store64_same; lia.
  - apply load64_store64_same; lia.
Qed.

Lemma alloc_reads_back now st sz p st' out :
  blocks st < 2 ^ 60 -> 0 <= sz <= 2 ^ 64 - 32 ->
  alloc now st sz = (Some p, st', out) ->
  hdr_blk st' p = alloc_blk sz /\ hdr_magic st' p = wrap64 now /\
  ftr_magic st' p = wrap64 now /\
  load64 (mem st') (ftr_addr p (alloc_blk sz) + 8) = wrap64 now.
Proof.
  intros Hb Hs H.
  pose proof (alloc_blk_range sz Hs) as Hk.
  destruct (alloc_shape _ _ _ _ _ _ Hb Hs H)
    as (i & f & Hi & _ & Hf & Hne & _ & -> & Ha & _ & Hm).
  destruct (guard_words (mem st) i f (alloc_blk sz) (wrap64 now)
              ltac:(lia) Hf Hne ltac:(lia) (wrap64_range now))
    as (G1 & G2 & G3 & G4).
  rewrite <- Hm in G1, G2, G3, G4.
  assert (E1 : hdr_blk st' ((i + 1) * 16) = alloc_blk sz).
  { unfold hdr_blk. replace ((i + 1) * 16 - 16) with (i * 16) by lia. exact G1. }
  split; [exact E1|].
  split.
  { unfold hdr_magic. replace ((i + 1) * 16 - 8) with (i * 16 + 8) by lia. exact G2. }
  split.
  { unfold ftr_magic. rewrite E1, Ha. exact G3. }
  rewrite Ha. exact G4.
Qed.

Lemma payload_blocks sz :
  0 <= sz <= 2 ^ 64 - 32 -> (alloc_blk sz - 2) * 16 = round16 sz.
Proof.
  intros H. destruct (round16_up sz ltac:(lia)) as (M & R & _).
  unfold alloc_blk. apply Z.mod_divide in M as [q Hq]; [|lia].
  rewrite Hq, Z.div_mul by lia. rewrite wrap64_small by lia. lia.
Qed.

(** X8.  After a successful [alloc] of up to [2^64 - 32] bytes the word
    16 bytes below the returned pointer holds the block count, the word 8
    bytes below holds the clock reading, and both words of the footer,
    which starts right after the rounded payload, hold the clock reading
    too. *)
Theorem alloc_layout (now : Z) (st : state) (sz p : Z)
    (st' : state) (out : list string) :
  blocks st < 2 ^ 60 -> 0 <= sz <= 2 ^ 64 - 32 ->
  alloc now st sz = (Some p, st', out) ->
  hdr_blk st' p = alloc_blk sz /\
  hdr_magic st' p = wrap64 now /\
  ftr_addr p (alloc_blk sz) = wrap64 (p + round16 sz) /\
  load64 (mem st') (wrap64 (p + round16 sz)) = wrap64 now /\
  load64 (mem st') (wrap64 (p + round16 sz) + 8) = wrap64 now.
Proof.
  intros Hb Hs H.
  destruct (alloc_reads_back _ _ _ _ _ _ Hb Hs H) as (G1 & G2 & G3 & G4).
  assert (E : ftr_addr p (alloc_blk sz) = wrap64 (p + round16 sz)).
  { unfold ftr_addr. rewrite payload_blocks by exact Hs.
    destruct (round16_up sz ltac:(lia)) as (_ & R & _).
    rewrite (wrap64_small (round16 sz)) by lia. reflexivity. }
  unfold ftr_magic in G3. rewrite G1, E in G3. rewrite E in G4.
  repeat split; assumption.
Qed.

Lemma alloc_layout_witness :
  blocks a16.1.2 < 2 ^ 60 /\ 0 <= 32 <= 2 ^ 64 - 32 /\
  alloc tick a16.1.2 32 = (Some 64, a16_32.1.2, []) /\
  hdr_blk a16_32.1.2 64 = alloc_blk 32 /\
  hdr_magic a16_32.1.2 64 = wrap64 tick /\
  ftr_addr 64 (alloc_blk 32) = wrap64 (64 + round16 32) /\
  load64 (mem a16_32.1.2) (wrap64 (64 + round16 32)) = wrap64 tick /\
  load64 (mem a16_32.1.2) (wrap64 (64 + round16 32) + 8) = wrap64 tick.
Proof.
  assert (Hb : blocks a16.1.2 < 2 ^ 60) by (vm_compute; reflexivity).
  assert (Hs : 0 <= 32 <= 2 ^ 64 - 32) by lia.
  assert (H : alloc tick a16.1.2 32 = (Some 64, a16_32.1.2, []))
    by (vm_compute; reflexivity).
  split; [exact Hb|]. split; [exact Hs|]. split; [exact H|].
  exact (alloc_layout tick a16.1.2 32 64 a16_32.1.2 [] Hb Hs H).
Defined.

(** X9.  A request of zero bytes succeeds with two blocks, and the
    pointer it returns is the address of the footer guard itself: the
    first word at the pointer is the clock reading that [free_mem] will
    compare with the header's. *)
Theorem alloc_zero_returns_footer (now : Z) (st : state) (p : Z)
    (st' : state) (out : list string) :
  blocks st < 2 ^ 60 ->
  alloc now st 0 = (Some p, st', out) ->
  hdr_blk st' p = 2 /\ ftr_addr p (hdr_blk st' p) = p /\
  load64 (mem st') p = wrap64 now /\ hdr_magic st' p = load64 (mem st') p.
Proof.
  intros Hb H.
  assert (Hs : 0 <= 0 <= 2 ^ 64 - 32) by lia.
  destruct (alloc_reads_back _ _ _ _ _ _ Hb Hs H) as (G1 & G2 & G3 & _).
  destruct (alloc_shape _ _ _ _ _ _ Hb Hs H) as (i & _ & Hi & _ & _ & _ & _ & Hp & _).
  change (alloc_blk 0) with 2 in G1.
  assert (E : ftr_addr p 2 = p).
  { unfold ftr_addr. change (wrap64 ((2 - 2) * 16)) with 0.
    rewrite Z.add_0_r. apply wrap64_small. lia. }
  unfold ftr_magic in G3. rewrite G1, E in G3.
  rewrite G1, E, G2, G3. repeat split.
Qed.

Lemma alloc_zero_returns_footer_witness :
  blocks s128 < 2 ^ 60 /\
  alloc tick s128 0 = (Some 16, a0.1.2, []) /\
  hdr_blk a0.1.2 16 = 2 /\ ftr_addr 16 (hdr_blk a0.1.2 16) = 16 /\
  load64 (mem a0.1.2) 16 = wrap64 tick /\
  hdr_magic a0.1.2 16 = load64 (mem a0.1.2) 16.
Proof.
  assert (Hb : blocks s128 < 2 ^ 60) by (vm_compute; reflexivity).
  assert (H : alloc tick s128 0 = (Some 16, a0.1.2, []))
    by (vm_compute; reflexivity).
  split; [exact Hb|]. split; [exact H|].
  exact (alloc_zero_returns_footer tick s128 16 a0.1.2 [] Hb H).
Defined.

(** X10.  [alloc] writes the 16 bytes of the header and the 16 bytes of
    the footer and nothing else: every other byte of the memory, the
    payload included, is left as it was (the payload is not cleared). *)
Theorem alloc_writes_only_guards (now : Z) (st : state) (sz p : Z)
    (st' : state) (out : list string) (a : Z) :
  blocks st < 2 ^ 60 -> 0 <= sz <= 2 ^ 64 - 32 ->
  alloc now st sz = (Some p, st', out) ->
  ~ (p - 16 <= a < p) ->
  ~ (ftr_addr p (alloc_blk sz) <= a < ftr_addr p (alloc_blk sz) + 16) ->
  mem st' !! a = mem st !! a.
Proof.
  intros Hb Hs H Hh Hf.
  destruct (alloc_shape _ _ _ _ _ _ Hb Hs H)
    as (i & f & Hi & _ & Hf1 & Hne & _ & -> & Ha & _ & Hm).
  rewrite Ha in Hf. rewrite Hm.
  rewrite !store64_other by lia. reflexivity.
Qed.

Lemma alloc_writes_only_guards_witness :
  blocks overrun < 2 ^ 60 /\ 0 <= 32 <= 2 ^ 64 - 32 /\
  alloc tick overrun 32 = (Some 64, (alloc tick overrun 32).1.2, []) /\
  ~ (64 - 16 <= 32 < 64) /\
  ~ (ftr_addr 64 (alloc_blk 32) <= 32 < ftr_addr 64 (alloc_blk 32) + 16) /\
  mem (alloc tick overrun 32).1.2 !! 32 = mem overrun !! 32.
Proof.
  assert (Hb : blocks overrun < 2 ^ 60) by (vm_compute; reflexivity).
  assert (Hs : 0 <= 32 <= 2 ^ 64 - 32) by lia.
  assert (H : alloc tick overrun 32 = (Some 64, (alloc tick overrun 32).1.2, []))
    by (vm_compute; reflexivity).
  assert (H1 : ~ (64 - 16 <= 32 < 64)) by lia.
  assert (H2 : ~ (ftr_addr 64 (alloc_blk 32) <= 32
                  < ftr_addr 64 (alloc_blk 32) + 16))
    by (replace (ftr_addr 64 (alloc_blk 32)) with 96
          by (vm_compute; reflexivity); lia).
  split; [exact Hb|]. split; [exact Hs|]. split; [exact H|].
  split; [exact H1|]. split; [exact H2|].
  exact (alloc_writes_only_guards tick overrun 32 64 _ [] 32 Hb Hs H H1 H2).
Defined.

(** ** free_mem after alloc *)

Lemma free_mem_accept st data :
  hdr_magic st data = ftr_magic st data ->
  free_mem st data =
  (with_bitmap st
     (mark_loop (bitmap st) (free_index data)
        (trip (free_index data)
           (wrap64 (free_index data + hdr_blk st data + 1)))),
   []).
Proof.
  intros H. unfold free_mem. rewrite H, Z.eqb_refl. reflexivity.
Qed.

Lemma free_mem_reject st data :
  hdr_magic st data <> ftr_magic st data ->
  free_mem st data = (with_poison st 1, [poison_msg]).
Proof.
  intros H. unfold free_mem.
  replace (hdr_magic st data =? ftr_magic st data) with false
    by (symmetry; apply Z.eqb_neq; exact H).
  reflexivity.
Qed.

Lemma alloc_shape_loads now st sz p st' out :
  blocks st < 2 ^ 60 -> 0 <= sz <= 2 ^ 64 - 32 ->
  alloc now st sz = (Some p, st', out) ->
  exists i f,
    0 <= i < 2 ^ 60 - 1 /\ 0 <= f < 2 ^ 60 /\ f <> i /\
    p = (i + 1) * 16 /\
    ftr_addr p (alloc_blk sz) = f * 16 /\
    wrap64 (p + round16 sz) = f * 16 /\
    bitmap st' = bitmap (place now st (alloc_blk sz) i) /\
    load64 (mem st') (i * 16) = alloc_blk sz /\
    load64 (mem st') (i * 16 + 8) = wrap64 now /\
    load64 (mem st') (f * 16) = wrap64 now /\
    load64 (mem st') (f * 16 + 8) = wrap64 now.
Proof.
  intros Hb Hs H.
  pose proof (alloc_blk_range sz Hs) as Hk.
  destruct (alloc_shape _ _ _ _ _ _ Hb Hs H)
    as (i & f & Hi & _ & Hf & Hne & _ & Hp & Ha & Hst & Hm).
  destruct (guard_words (mem st) i f (alloc_blk sz) (wrap64 now)
              ltac:(lia) Hf Hne ltac:(lia) (wrap64_range now))
    as (G1 & G2 & G3 & G4).
  rewrite <- Hm in G1, G2, G3, G4.
  exists i, f. repeat split; try assumption; try lia.
  - rewrite <- Ha. unfold ftr_addr. rewrite payload_blocks by exact Hs.
    destruct (round16_up sz ltac:(lia)) as (_ & R & _).
    rewrite (wrap64_small (round16 sz)) by lia. reflexivity.
  - rewrite Hst. reflexivity.
Qed.

(** X11.  Round trip: releasing a pointer right after [alloc] returned
    it is accepted without a message, does not poison, and puts every
    bitmap byte back to its value before the [alloc]; the same request
    made again gets the same pointer. *)
Theorem free_after_alloc_restores (now : Z) (st : state) (sz p : Z)
    (st' : state) (out : list string) :
  bytes_ok (bitmap st) -> blocks st < 2 ^ 60 -> 0 <= sz <= 2 ^ 64 - 32 ->
  alloc now st sz = (Some p, st', out) ->
  (free_mem st' p).2 = [] /\
  poison (free_mem st' p).1 = 0 /\
  same_bytes (bitmap (free_mem st' p).1) (bitmap st) /\
  (forall now', (alloc now' (free_mem st' p).1 sz).1.1 = Some p).
Proof.
  intros Hok Hb Hs H.
  destruct (alloc_reads_back _ _ _ _ _ _ Hb Hs H) as (G1 & G2 & G3 & _).
  destruct (alloc_shape _ _ _ _ _ _ Hb Hs H)
    as (i & f & Hi & _ & _ & _ & Hfind & Hp & _ & Hst & _).
  destruct (alloc_Some _ _ _ _ _ _ H) as (Hpo & _).
  rewrite free_mem_accept by congruence. cbn [fst snd].
  assert (Ei : free_index p = i).
  { rewrite Hp, <- (wrap64_small ((i + 1) * 16)) by lia.
    apply free_index_of_alloc. exact Hi. }
  rewrite Ei, G1.
  assert (Hsame : same_bytes
            (mark_loop (bitmap st') i (trip i (wrap64 (i + alloc_blk sz + 1))))
            (bitmap st)).
  { rewrite Hst. unfold place. cbn [bitmap]. apply mark_loop_twice, Hok. }
  split; [reflexivity|].
  split; [rewrite Hst; exact Hpo|].
  split; [exact Hsame|].
  intros now'. unfold alloc. cbn [poison with_bitmap bitmap blocks].
  rewrite Hst. cbn [place poison blocks]. rewrite Hpo. cbn [negb Z.eqb].
  rewrite Hst in Hsame. cbn [place bitmap] in Hsame.
  rewrite (find_run_ext _ _ _ _ _ Hsame), Hfind. cbn [fst].
  rewrite Hp, wrap64_small by lia. reflexivity.
Qed.

Lemma free_after_alloc_restores_witness :
  bytes_ok (bitmap a16.1.2) /\ blocks a16.1.2 < 2 ^ 60 /\
  0 <= 32 <= 2 ^ 64 - 32 /\
  alloc tick a16.1.2 32 = (Some 64, a16_32.1.2, []) /\
  (free_mem a16_32.1.2 64).2 = [] /\
  poison (free_mem a16_32.1.2 64).1 = 0 /\
  same_bytes (bitmap (free_mem a16_32.1.2 64).1) (bitmap a16.1.2) /\
  (forall now', (alloc now' (free_mem a16_32.1.2 64).1 32).1.1 = Some 64).
Proof.
  assert (Hok : bytes_ok (bitmap a16.1.2))
    by (apply (bool_decide_unpack _); vm_compute; exact I).
  assert (Hb : blocks a16.1.2 < 2 ^ 60) by (vm_compute; reflexivity).
  assert (Hs : 0 <= 32 <= 2 ^ 64 - 32) by lia.
  assert (H : alloc tick a16.1.2 32 = (Some 64, a16_32.1.2, []))
    by (vm_compute; reflexivity).
  split; [exact Hok|]. split; [exact Hb|]. split; [exact Hs|]. split; [exact H|].
  exact (free_after_alloc_restores tick a16.1.2 32 64 a16_32.1.2 [] Hok Hb Hs H).
Defined.

(** X12.  A double release goes unnoticed: [free_mem] leaves the header
    and the footer in place, so a second release of the same pointer
    passes the guard test again, and its marking loop puts every bitmap
    byte back to what it was before the first release. *)
Theorem double_free_goes_unnoticed (st : state) (data : Z) :
  bytes_ok (bitmap st) -> hdr_magic st data = ftr_magic st data ->
  (free_mem st data).2 = [] /\
  (free_mem (free_mem st data).1 data).2 = [] /\
  poison (free_mem (free_mem st data).1 data).1 = poison st /\
  same_bytes (bitmap (free_mem (free_mem st data).1 data).1) (bitmap st).
Proof.
  intros Hok H.
  rewrite (free_mem_accept st data H). cbn [fst snd].
  set (bm1 := mark_loop (bitmap st) _ _).
  assert (H' : hdr_magic (with_bitmap st bm1) data
               = ftr_magic (with_bitmap st bm1) data) by exact H.
  rewrite (free_mem_accept _ data H'). cbn [fst snd with_bitmap bitmap poison].
  split; [reflexivity|]. split; [reflexivity|]. split; [reflexivity|].
  change (hdr_blk (with_bitmap st bm1) data) with (hdr_blk st data).
  unfold bm1. apply mark_loop_twice, Hok.
Qed.

Lemma double_free_goes_unnoticed_witness :
  bytes_ok (bitmap a16.1.2) /\ hdr_magic a16.1.2 16 = ftr_magic a16.1.2 16 /\
  byte_at (bitmap a16.1.2) 0 = 5 /\
  byte_at (bitmap (free_mem a16.1.2 16).1) 0 = 0 /\
  (free_mem a16.1.2 16).2 = [] /\
  (free_mem (free_mem a16.1.2 16).1 16).2 = [] /\
  poison (free_mem (free_mem a16.1.2 16).1 16).1 = poison a16.1.2 /\
  same_bytes (bitmap (free_mem (free_mem a16.1.2 16).1 16).1) (bitmap a16.1.2).
Proof.
  assert (Hok : bytes_ok (bitmap a16.1.2))
    by (apply (bool_decide_unpack _); vm_compute; exact I).
  assert (H : hdr_magic a16.1.2 16 = ftr_magic a16.1.2 16)
    by (vm_compute; reflexivity).
  split; [exact Hok|]. split; [exact H|].
  split; [vm_compute; reflexivity|]. split; [vm_compute; reflexivity|].
  exact (double_free_goes_unnoticed a16.1.2 16 Hok H).
Defined.

(** ** Overruns, poisoning and recovery *)

(** X13.  An overrun is caught: if, after a successful [alloc], the word
    right after the rounded payload is overwritten with a value other
    than the guard, [free_mem] of the pointer reports the corruption,
    sets the poison flag and leaves the rest of the state alone; every
    later [alloc] returns null. *)
Theorem overrun_is_detected (now : Z) (st : state) (sz p : Z)
    (st' : state) (out : list string) (v : Z) :
  blocks st < 2 ^ 60 -> 0 <= sz <= 2 ^ 64 - 32 ->
  alloc now st sz = (Some p, st', out) ->
  0 <= v < 2 ^ 64 -> v <> wrap64 now ->
  free_mem (user_write st' (wrap64 (p + round16 sz)) v) p =
    (with_poison (user_write st' (wrap64 (p + round16 sz)) v) 1, [poison_msg]) /\
  (forall now' sz',
     (alloc now' (free_mem (user_write st' (wrap64 (p + round16 sz)) v) p).1 sz').1.1
     = None).
Proof.
  intros Hb Hs H Hv Hne.
  destruct (alloc_shape_loads _ _ _ _ _ _ Hb Hs H)
    as (i & f & Hi & Hf & Hfi & Hp & Ha & Hw & _ & G1 & G2 & G3 & _).
  rewrite Hw.
  assert (E1 : hdr_blk (user_write st' (f * 16) v) p = alloc_blk sz).
  { unfold hdr_blk, user_write. cbn [mem]. rewrite Hp.
    replace ((i + 1) * 16 - 16) with (i * 16) by lia.
    rewrite load64_store64_disjoint by lia. exact G1. }
  assert (E2 : hdr_magic (user_write st' (f * 16) v) p = wrap64 now).
  { unfold hdr_magic, user_write. cbn [mem]. rewrite Hp.
    replace ((i + 1) * 16 - 8) with (i * 16 + 8) by lia.
    rewrite load64_store64_disjoint by lia. exact G2. }
  assert (E3 : ftr_magic (user_write st' (f * 16) v) p = v).
  { unfold ftr_magic. rewrite E1, Ha. unfold user_write. cbn [mem].
    apply load64_store64_same; lia. }
  assert (R : free_mem (user_write st' (f * 16) v) p =
              (with_poison (user_write st' (f * 16) v) 1, [poison_msg])).
  { apply free_mem_reject. rewrite E2, E3. congruence. }
  split; [exact R|].
  intros now' sz'. rewrite R. reflexivity.
Qed.

Lemma overrun_is_detected_witness :
  blocks s128 < 2 ^ 60 /\ 0 <= 16 <= 2 ^ 64 - 32 /\
  alloc tick s128 16 = (Some 16, a16.1.2, []) /\
  0 <= 0 < 2 ^ 64 /\ 0 <> wrap64 tick /\
  free_mem (user_write a16.1.2 (wrap64 (16 + round16 16)) 0) 16 =
    (with_poison (user_write a16.1.2 (wrap64 (16 + round16 16)) 0) 1,
     [poison_msg]) /\
  (forall now' sz',
     (alloc now' (free_mem (user_write a16.1.2 (wrap64 (16 + round16 16)) 0) 16).1
        sz').1.1 = None).
Proof.
  assert (Hb : blocks s128 < 2 ^ 60) by (vm_compute; reflexivity).
  assert (Hs : 0 <= 16 <= 2 ^ 64 - 32) by lia.
  assert (H : alloc tick s128 16 = (Some 16, a16.1.2, []))
    by (vm_compute; reflexivity).
  assert (Hv : 0 <= 0 < 2 ^ 64) by lia.
  assert (Hne : 0 <> wrap64 tick) by (vm_compute; discriminate).
  split; [exact Hb|]. split; [exact Hs|]. split; [exact H|].
  split; [exact Hv|]. split; [exact Hne|].
  exact (overrun_is_detected tick s128 16 16 a16.1.2 [] 0 Hb Hs H Hv Hne).
Defined.

(** X14.  Only the first word of the footer is compared.  The second
    word, 8 bytes further, is written by [alloc] and never read: whatever
    is stored over it, [free_mem] accepts the pointer and marks the
    bitmap just as it does for the untouched allocation. *)
Theorem second_footer_word_is_not_checked (now : Z) (st : state) (sz p : Z)
    (st' : state) (out : list string) (v : Z) :
  blocks st < 2 ^ 60 -> 0 <= sz <= 2 ^ 64 - 32 ->
  alloc now st sz = (Some p, st', out) ->
  (free_mem (user_write st' (wrap64 (p + round16 sz) + 8) v) p).2 = [] /\
  poison (free_mem (user_write st' (wrap64 (p + round16 sz) + 8) v) p).1
    = poison st' /\
  bitmap (free_mem (user_write st' (wrap64 (p + round16 sz) + 8) v) p).1
    = bitmap (free_mem st' p).1.
Proof.
  intros Hb Hs H.
  destruct (alloc_reads_back _ _ _ _ _ _ Hb Hs H) as (B1 & B2 & B3 & _).
  destruct (alloc_shape_loads _ _ _ _ _ _ Hb Hs H)
    as (i & f & Hi & Hf & Hfi & Hp & Ha & Hw & _ & G1 & G2 & G3 & _).
  rewrite Hw.
  assert (E1 : hdr_blk (user_write st' (f * 16 + 8) v) p = alloc_blk sz).
  { unfold hdr_blk, user_write. cbn [mem]. rewrite Hp.
    replace ((i + 1) * 16 - 16) with (i * 16) by lia.
    rewrite load64_store64_disjoint by lia. exact G1. }
  assert (E2 : hdr_magic (user_write st' (f * 16 + 8) v) p = wrap64 now).
  { unfold hdr_magic, user_write. cbn [mem]. rewrite Hp.
    replace ((i + 1) * 16 - 8) with (i * 16 + 8) by lia.
    rewrite load64_store64_disjoint by lia. exact G2. }
  assert (E3 : ftr_magic (user_write st' (f * 16 + 8) v) p = wrap64 now).
  { unfold ftr_magic. rewrite E1, Ha. unfold user_write. cbn [mem].
    rewrite load64_store64_disjoint by lia. exact G3. }
  rewrite free_mem_accept by congruence.
  rewrite (free_mem_accept st' p) by congruence.
  cbn [fst snd with_bitmap bitmap poison user_write].
  rewrite E1, B1. repeat split.
Qed.

Lemma second_footer_word_is_not_checked_witness :
  blocks s128 < 2 ^ 60 /\ 0 <= 16 <= 2 ^ 64 - 32 /\
  alloc tick s128 16 = (Some 16, a16.1.2, []) /\
  load64 (mem (user_write a16.1.2 (wrap64 (16 + round16 16) + 8) 0)) 40 = 0 /\
  (free_mem (user_write a16.1.2 (wrap64 (16 + round16 16) + 8) 0) 16).2 = [] /\
  poison (free_mem (user_write a16.1.2 (wrap64 (16 + round16 16) + 8) 0) 16).1
    = poison a16.1.2 /\
  bitmap (free_mem (user_write a16.1.2 (wrap64 (16 + round16 16) + 8) 0) 16).1
    = bitmap (free_mem a16.1.2 16).1.
Proof.
  assert (Hb : blocks s128 < 2 ^ 60) by (vm_compute; reflexivity).
  assert (Hs : 0 <= 16 <= 2 ^ 64 - 32) by lia.
  assert (H : alloc tick s128 16 = (Some 16, a16.1.2, []))
    by (vm_compute; reflexivity).
  split; [exact Hb|]. split; [exact Hs|]. split; [exact H|].
  split; [vm_compute; reflexivity|].
  exact (second_footer_word_is_not_checked tick s128 16 16 a16.1.2 [] 0 Hb Hs H).
Defined.

(** X15.  A rejected release changes the poison flag and nothing else:
    until [clear_posion] every [alloc] returns null without a message,
    and [clear_posion] gives back exactly the state before the release,
    so the blocks of the rejected pointer stay marked as they were. *)
Theorem clear_posion_undoes_poisoning (st : state) (data : Z) :
  poison st = 0 -> hdr_magic st data <> ftr_magic st data ->
  (forall now sz,
     alloc now (free_mem st data).1 sz = (None, (free_mem st data).1, [])) /\
  clear_posion (free_mem st data).1 = st.
Proof.
  intros Hp H. rewrite (free_mem_reject st data H). cbn [fst].
  split; [intros now sz; reflexivity|].
  destruct st as [m pl bm bs bl po]. cbn in Hp. subst po. reflexivity.
Qed.

Lemma clear_posion_undoes_poisoning_witness :
  poison overrun = 0 /\ hdr_magic overrun 16 <> ftr_magic overrun 16 /\
  (forall now sz,
     alloc now (free_mem overrun 16).1 sz = (None, (free_mem overrun 16).1, [])) /\
  clear_posion (free_mem overrun 16).1 = overrun.
Proof.
  assert (Hp : poison overrun = 0) by (vm_compute; reflexivity).
  assert (H : hdr_magic overrun 16 <> ftr_magic overrun 16)
    by (vm_compute; discriminate).
  split; [exact Hp|]. split; [exact H|].
  exact (clear_posion_undoes_poisoning overrun 16 Hp H).
Defined.

Lemma load64_blank m a : same_bytes m ∅ -> load64 m a = 0.
Proof.
  intros H. unfold load64.
  assert (L : forall n b, decode_le (load_bytes m b n) = 0).
  { induction n as [|n IH]; intros b; [reflexivity|].
    cbn [load_bytes decode_le]. rewrite IH, (H (wrap64 b)). reflexivity. }
  apply L.
Qed.

(** X16.  A pointer that [alloc] never returned is not always caught: in
    a pool that reads zero everywhere (a fresh one) the header and the
    footer words that [free_mem] reads are all zero, so any pointer passes
    the guard test; the allocator is not poisoned and [MARK] is applied
    once, at the block index computed from the pointer. *)
Theorem stray_pointer_into_blank_pool_accepted (st : state) (data : Z) :
  same_bytes (mem st) ∅ ->
  free_mem st data =
    (with_bitmap st (MARK (bitmap st) (free_index data)), []).
Proof.
  intros H.
  assert (E1 : hdr_blk st data = 0) by (apply load64_blank, H).
  assert (E2 : hdr_magic st data = 0) by (apply load64_blank, H).
  assert (E3 : ftr_magic st data = 0) by (apply load64_blank, H).
  rewrite free_mem_accept by congruence. rewrite E1.
  assert (R : 0 <= free_index data < 2 ^ 60).
  { unfold free_index.
    pose proof (wrap64_range (wrap64 data - 16)) as W.
    split; [apply Z.div_pos; lia|apply Z.div_lt_upper_bound; lia]. }
  rewrite wrap64_small by lia.
  replace (trip (free_index data) (free_index data + 0 + 1)) with 1%nat
    by (unfold trip; lia).
  reflexivity.
Qed.

Lemma stray_pointer_into_blank_pool_accepted_witness :
  same_bytes (mem s128) ∅ /\
  free_mem s128 48 = (with_bitmap s128 (MARK (bitmap s128) (free_index 48)), []) /\
  poison (free_mem s128 48).1 = 0 /\
  byte_at (bitmap (free_mem s128 48).1) 0 = 3.
Proof.
  assert (H : same_bytes (mem s128) ∅) by (intros k; reflexivity).
  split; [exact H|].
  split; [exact (stray_pointer_into_blank_pool_accepted s128 48 H)|].
  split; vm_compute; reflexivity.
Defined.

(** X20.  A pool size of 0, and one above [2^64 - 16], which the
    rounding wraps to 0, is never set up: the reservation of the pool is
    refused whatever the system has free, and [alloc_init] reports it and
    returns before the bitmap is asked for and [blocks] assigned. *)
Theorem alloc_init_refuses_empty_pool (heap bmp : answer) (st : state) (p0 : Z) :
  p0 = 0 \/ 2 ^ 64 - 16 < p0 < 2 ^ 64 ->
  alloc_init_sys heap bmp st p0 =
    InitNoHeap [no_heap_msg; perror_mmap "Invalid argument"].
Proof.
  intros H.
  assert (R : round16 p0 = 0).
  { destruct H as [->|H]; [reflexivity|apply round16_top, H]. }
  unfold alloc_init_sys, mmap_len. rewrite R. reflexivity.
Qed.

Lemma alloc_init_refuses_empty_pool_witness :
  (2 ^ 64 - 1 = 0 \/ 2 ^ 64 - 16 < 2 ^ 64 - 1 < 2 ^ 64) /\
  alloc_init_sys Granted Granted boot (2 ^ 64 - 1) =
    InitNoHeap [no_heap_msg; perror_mmap "Invalid argument"].
Proof.
  assert (H : 2 ^ 64 - 1 = 0 \/ 2 ^ 64 - 16 < 2 ^ 64 - 1 < 2 ^ 64)
    by (right; lia).
  split; [exact H|].
  exact (alloc_init_refuses_empty_pool Granted Granted boot (2 ^ 64 - 1) H).
Defined.

(** ** Sizes that wrap *)

(** The search succeeds at or below any index that passes its test. *)
Lemma find_run_at_most bm blk n k :
  0 <= k < Z.of_nat n -> fits bm blk k = true ->
  exists i, 0 <= i <= k /\ find_run bm blk 0 n = Some i.
Proof.
  intros Hk Hf. destruct (find_run bm blk 0 n) as [i|] eqn:E.
  - exists i. split; [|reflexivity].
    pose proof (find_run_Some _ _ _ _ _ E) as (Hi & _).
    split; [lia|].
    destruct (Z_le_gt_dec i k) as [L|G]; [exact L|].
    pose proof (find_run_first _ _ _ _ _ k E ltac:(lia)) as C.
    unfold fits in Hf. rewrite Hf in C. discriminate C.
  - pose proof (find_run_None _ _ _ _ k E ltac:(lia)) as C.
    unfold fits in Hf. rewrite Hf in C. discriminate C.
Qed.

(** C10.  The rounding in [alloc] is done modulo 2^64: a size that is
    not a multiple of 16 becomes [sz + (16 - sz mod 16)] modulo 2^64.
    For a size above [2^64 - 16] the result is 0 and the block count is
    2, and the request is not refused but served as [alloc(0)] is: in a
    pool that is set up and not poisoned, as soon as some block [k] with
    two blocks after it in the pool passes the test of the search, the
    call returns a pointer [16 * (i + 1)] with [i <= k], stores the block
    count 2 and the guard in the header, and the footer guard at the
    returned address itself (no payload). *)
Theorem alloc_rounding_wraps (sz : Z) :
  0 <= sz < 2 ^ 64 ->
  (sz mod 16 <> 0 -> round16 sz = (sz + (16 - sz mod 16)) mod 2 ^ 64) /\
  (2 ^ 64 - 16 < sz ->
     sz mod 16 <> 0 /\ round16 sz = 0 /\ alloc_blk sz = 2 /\
     (forall now st, alloc now st sz = alloc now st 0) /\
     (forall now st k,
        poison st = 0 -> set_up st ->
        0 <= k -> k + 2 < blocks st -> fits (bitmap st) 2 k = true ->
        exists i,
          0 <= i <= k /\
          alloc now st sz = (Some (16 * (i + 1)), place now st 2 i, []) /\
          hdr_blk (place now st 2 i) (16 * (i + 1)) = 2 /\
          hdr_magic (place now st 2 i) (16 * (i + 1)) = wrap64 now /\
          load64 (mem (place now st 2 i)) (16 * (i + 1)) = wrap64 now)).
Proof.
  intros Hr. split.
  - intros Hm. unfold round16.
    replace (sz mod 16 =? 0) with false by (symmetry; apply Z.eqb_neq; exact Hm).
    reflexivity.
  - intros Ht.
    assert (R : round16 sz = 0) by (apply round16_top; lia).
    assert (B : alloc_blk sz = 2) by (unfold alloc_blk; rewrite R; reflexivity).
    assert (A : forall now st, alloc now st sz = alloc now st 0)
      by (intros now st; unfold alloc; rewrite B; reflexivity).
    split.
    { intros Hm. rewrite (round16_aligned sz Hm) in R. lia. }
    split; [exact R|]. split; [exact B|]. split; [exact A|].
    intros now st k Hp (Hb & _ & _) Hk0 Hk Hf.
    destruct (find_run_at_most (bitmap st) 2 (Z.to_nat (blocks st)) k
                ltac:(lia) Hf) as (i & Hi & Hfind).
    exists i. split; [exact Hi|].
    assert (E : alloc now st 0 = (Some (16 * (i + 1)), place now st 2 i, [])).
    { unfold alloc. rewrite Hp. cbn [negb Z.eqb].
      change (alloc_blk 0) with 2. rewrite Hfind.
      rewrite wrap64_small by lia.
      replace ((i + 1) * 16) with (16 * (i + 1)) by lia. reflexivity. }
    split; [rewrite A; exact E|].
    destruct (alloc_reads_back now st 0 _ _ _ ltac:(lia) ltac:(lia) E)
      as (G1 & G2 & G3 & _).
    change (alloc_blk 0) with 2 in G1.
    split; [exact G1|]. split; [exact G2|].
    unfold ftr_magic in G3. rewrite G1 in G3. unfold ftr_addr in G3.
    change (wrap64 ((2 - 2) * 16)) with 0 in G3.
    rewrite Z.add_0_r, wrap64_small in G3 by lia. exact G3.
Qed.

Lemma alloc_rounding_wraps_witness :
  0 <= 2 ^ 64 - 1 < 2 ^ 64 /\
  round16 (2 ^ 64 - 1) = 0 /\ alloc_blk (2 ^ 64 - 1) = 2 /\
  alloc tick s128 (2 ^ 64 - 1) = alloc tick s128 0 /\
  poison s128 = 0 /\ set_up s128 /\ 0 + 2 < blocks s128 /\
  fits (bitmap s128) 2 0 = true /\
  alloc tick s128 (2 ^ 64 - 1) = (Some 16, place tick s128 2 0, []) /\
  hdr_blk (place tick s128 2 0) 16 = 2 /\
  load64 (mem (place tick s128 2 0)) 16 = wrap64 tick.
Proof.
  assert (H : 0 <= 2 ^ 64 - 1 < 2 ^ 64) by lia.
  assert (Hp : poison s128 = 0) by reflexivity.
  assert (Hs : set_up s128).
  { unfold set_up.
    replace (blocks s128) with 8 by reflexivity.
    replace (pool s128) with 128 by reflexivity.
    replace (bitmap_sz s128) with 1 by reflexivity. lia. }
  assert (Hk : 0 + 2 < blocks s128) by reflexivity.
  assert (Hf : fits (bitmap s128) 2 0 = true) by (vm_compute; reflexivity).
  split; [exact H|].
  destruct (alloc_rounding_wraps (2 ^ 64 - 1) H) as [_ W].
  destruct W as (_ & R & B & A & S); [lia|].
  split; [exact R|]. split; [exact B|]. split; [apply A|].
  split; [exact Hp|]. split; [exact Hs|]. split; [exact Hk|]. split; [exact Hf|].
  destruct (S tick s128 0 Hp Hs ltac:(lia) Hk Hf) as (i & Hi & E & G1 & _ & G3).
  assert (i = 0) as -> by lia.
  split; [exact E|]. split; [exact G1|exact G3].
Defined.
